(** * MazKhat ledger store, balance recomputation, cloud sync and backup

    Shallow embedding of
    - [src/src/utils/storage.js]: getLedgersKey, getAllLedgers, saveLedger,
      deleteTransaction, deleteLedger, syncLedgerToFirebase,
      fetchFromFirebase, syncAllToFirebase, getBackupSettings,
      updateBackupSettings, getExpenses, getCategories;
    - [src/src/screens/AddTransactionScreen.js]: the balance recomputation of
      handleConfirm (the add / edit transaction path);
    - [src/unnamed/part_001] (backup utilities): exportDataToBackup,
      importDataFromBackup, validateBackupFile.

    Modelling choices.
    - Amounts, balances and dates are exact integers ([Z]); dates are the
      millisecond value [new Date(t.date)] compares by. Floating point
      rounding is outside the model.
    - AsyncStorage is a key-value map; a key holds either a parseable JSON
      text (modelled by its decoded value) or a corrupt text.
    - Firestore is a map from document paths ([list string]) to documents.
      Failing network writes and reads are given by oracles in the
      environment, failing local writes likewise.
    - Every async function is a computation of a small reader / state /
      exception monad: [None] is a thrown (or rejected) exception, the state
      reached before the throw is kept (writes already issued stay).
    - A call that is not awaited (fire-and-forget sync) is recorded in the
      state as a background task. *)

From Stdlib Require Import ZArith List Lia String Bool.
From Stdlib Require Import Sorting.Sorted Sorting.Permutation.
From stdpp Require Import base gmap strings list.

Local Open Scope Z_scope.
Local Set Warnings "-register-all".

(* ------------------------------------------------------------------ *)
(** ** Ledgers and transactions (typed view of the stored JSON) *)

Module Store.

(** A transaction object. The fields [note], [displayDate] and [billPhoto]
    that AddTransactionScreen also stores are not modelled: no balance,
    sync or fetch code of the cited files reads them, and
    syncLedgerToFirebase does not write them. *)
Record txn := mkTxn {
  t_id : string;
  t_type : string;
  t_amount : Z;
  t_date : Z;
  t_balanceAfter : option Z   (* absent field = None *)
}.

Record ledger := mkLedger {
  l_id : string;
  l_name : string;
  l_phone : string;
  l_address : string;
  l_balance : Z;
  l_transactions : option (list txn)   (* absent field = None *)
}.

Definition is_credit (t : txn) : bool := String.eqb (t_type t) "credit"%string.

Definition set_balanceAfter (b : Z) (t : txn) : txn :=
  mkTxn (t_id t) (t_type t) (t_amount t) (t_date t) (Some b).

Definition with_balance_txns (L : ledger) (b : Z) (ts : list txn) : ledger :=
  mkLedger (l_id L) (l_name L) (l_phone L) (l_address L) b (Some ts).

(** [arr.sort((a, b) => new Date(a.date) - new Date(b.date))]:
    Array.prototype.sort is stable, so the result is the stable sort by
    date; here as an insertion sort that places a new element after every
    element with a date not later than its own. *)
Fixpoint insert_by_date (x : txn) (l : list txn) : list txn :=
  match l with
  | [] => [x]
  | y :: ys => if Z.leb (t_date y) (t_date x) then y :: insert_by_date x ys
               else x :: l
  end.

Definition sort_by_date (l : list txn) : list txn :=
  fold_left (fun acc x => insert_by_date x acc) l [].

(** handleConfirm:
    [let runningBalance = 0;
     updatedTransactions = updatedTransactions.map(t => {
        if (t.type === 'credit') runningBalance += t.amount;
        else runningBalance -= t.amount;
        return { ...t, balanceAfter: runningBalance }; });] *)
Fixpoint assign_running (runningBalance : Z) (l : list txn) : list txn * Z :=
  match l with
  | [] => ([], runningBalance)
  | t :: r =>
      let rb := if is_credit t then runningBalance + t_amount t
                else runningBalance - t_amount t in
      let '(r', fin) := assign_running rb r in
      (set_balanceAfter rb t :: r', fin)
  end.

(** [editTransaction ? ledger.transactions.map(t => t.id === editTransaction.id
    ? transactionData : t) : [...ledger.transactions, transactionData]] *)
Definition updatedTransactions (editId : option string) (transactionData : txn)
    (ts : list txn) : list txn :=
  match editId with
  | Some e => map (fun t => if String.eqb (t_id t) e then transactionData else t) ts
  | None => ts ++ [transactionData]
  end.

(** handleConfirm of AddTransactionScreen, from the evaluated amount on.
    [editId] is [editTransaction.id] when editing, [genId] the value of
    [generateId()] otherwise. [None] means nothing is saved: the amount
    guard returned early, or [ledger.transactions] is missing and
    [.map] / spread throws. *)
Definition handleConfirm (L : ledger) (editId : option string) (genId : string)
    (type : string) (numAmount date : Z) : option ledger :=
  if Z.leb numAmount 0 then None else
  match l_transactions L with
  | None => None
  | Some ts =>
      let transactionData :=
        mkTxn (match editId with Some e => e | None => genId end)
              type numAmount date None in
      let updatedTransactions := updatedTransactions editId transactionData ts in
      let '(ts', newBalance) := assign_running 0 (sort_by_date updatedTransactions) in
      Some (with_balance_txns L newBalance ts')
  end.

(** Spec side: the signed sum of amounts, credit positive, debit negative. *)
Definition signed (t : txn) : Z := if is_credit t then t_amount t else - t_amount t.

Fixpoint signed_sum (l : list txn) : Z :=
  match l with [] => 0 | t :: r => signed t + signed_sum r end.

(** Transactions with the derived [balanceAfter] field dropped. *)
Definition strip (t : txn) : txn := mkTxn (t_id t) (t_type t) (t_amount t) (t_date t) None.

Definition date_le (a b : txn) : Prop := t_date a <= t_date b.

(** Spec side: every [balanceAfter] is the cumulative sum through its index. *)
Definition running_ok (l : list txn) : Prop :=
  forall (i : nat) (t : txn), l !! i = Some t ->
    t_balanceAfter t = Some (signed_sum (take (S i) l)).

(** ** Local storage, remote store, environment *)

Inductive stored_ledgers := LCorrupt | LColl (c : gmap string ledger).

Record settings := mkSettings {
  autoBackup : bool;
  lastSync : option string;
  syncStatus : string
}.

Definition default_settings : settings := mkSettings false None "idle"%string.

Inductive stored_settings := SCorrupt | SStored (s : settings).

Record expense := mkExpense { e_id : string; e_title : string; e_amount : Z }.

(** Firestore documents, one constructor per kind of document written. *)
Inductive doc :=
  | DLedger (name : string) (balance : Z) (phone address updatedAt : string)
  | DTxn (type : string) (amount date : Z) (balanceAfter : option Z)
  | DExpense (e : expense) (updatedAt : string)
  | DCategories (list : list string) (updatedAt : string).

(** A call that is started without [await]. *)
Inductive task := TSyncAll | TSyncLedger (l : ledger).

Record state := mkState {
  ledgers_kv : gmap string stored_ledgers;
  settings_kv : gmap string stored_settings;
  expenses_kv : gmap string (list expense);
  categories_kv : gmap string (list string);
  remote : gmap (list string) doc;
  background : list task
}.

Record env := mkEnv {
  currentUser : option string;               (* auth.currentUser.uid *)
  now : string;                              (* new Date().toISOString() *)
  local_write_fails : string -> bool;        (* AsyncStorage.setItem(key) rejects *)
  remote_write_fails : list string -> bool;  (* setDoc / deleteDoc on a path rejects *)
  remote_read_fails : list string -> bool    (* getDocs on a collection rejects *)
}.

(** ** The monad: reader of [env], state, exceptions *)

Definition M (A : Type) : Type := env -> state -> option A * state.

Definition ret {A} (x : A) : M A := fun _ s => (Some x, s).
Definition bind {A B} (m : M A) (f : A -> M B) : M B :=
  fun e s => match m e s with
             | (Some x, s') => f x e s'
             | (None, s') => (None, s')
             end.
Definition throw {A} : M A := fun _ s => (None, s).
(** [try { m } catch { return h }] *)
Definition catch_ {A} (m : M A) (h : A) : M A :=
  fun e s => match m e s with
             | (Some x, s') => (Some x, s')
             | (None, s') => (Some h, s')
             end.
Definition ask : M env := fun e s => (Some e, s).
Definition gets {A} (f : state -> A) : M A := fun _ s => (Some (f s), s).
Definition modify (f : state -> state) : M unit := fun _ s => (Some tt, f s).

Notation "x <- m ;; k" := (bind m (fun x => k)) (at level 100, m at next level, right associativity).
Notation "m ;;; k" := (bind m (fun _ => k)) (at level 100, right associativity).

Fixpoint forM_ {A} (l : list A) (f : A -> M unit) : M unit :=
  match l with [] => ret tt | x :: r => f x ;;; forM_ r f end.

Fixpoint foldM {A B} (f : B -> A -> M B) (l : list A) (acc : B) : M B :=
  match l with [] => ret acc | x :: r => acc' <- f acc x ;; foldM f r acc' end.

(** ** Primitive effects *)

Definition set_ledgers_kv (s : state) (m : gmap string stored_ledgers) : state :=
  mkState m (settings_kv s) (expenses_kv s) (categories_kv s) (remote s) (background s).
Definition set_settings_kv (s : state) (m : gmap string stored_settings) : state :=
  mkState (ledgers_kv s) m (expenses_kv s) (categories_kv s) (remote s) (background s).
Definition set_remote (s : state) (r : gmap (list string) doc) : state :=
  mkState (ledgers_kv s) (settings_kv s) (expenses_kv s) (categories_kv s) r (background s).
Definition set_background (s : state) (b : list task) : state :=
  mkState (ledgers_kv s) (settings_kv s) (expenses_kv s) (categories_kv s) (remote s) b.

(** [AsyncStorage.setItem(key, JSON.stringify(collection))] *)
Definition setLedgersItem (key : string) (c : gmap string ledger) : M unit :=
  fun e s => if local_write_fails e key then (None, s)
             else (Some tt, set_ledgers_kv s (<[key := LColl c]> (ledgers_kv s))).

Definition setSettingsItem (key : string) (v : settings) : M unit :=
  fun e s => if local_write_fails e key then (None, s)
             else (Some tt, set_settings_kv s (<[key := SStored v]> (settings_kv s))).

Definition setDoc (path : list string) (d : doc) : M unit :=
  fun e s => if remote_write_fails e path then (None, s)
             else (Some tt, set_remote s (<[path := d]> (remote s))).

Definition deleteDoc (path : list string) : M unit :=
  fun e s => if remote_write_fails e path then (None, s)
             else (Some tt, set_remote s (delete path (remote s))).

Fixpoint strip_prefix (p k : list string) : option (list string) :=
  match p, k with
  | [], _ => Some k
  | x :: p', y :: k' => if String.eqb x y then strip_prefix p' k' else None
  | _ :: _, [] => None
  end.

(** The documents directly inside a collection: [(doc.id, doc.data())]. *)
Definition children (coll : list string) (r : gmap (list string) doc) : list (string * doc) :=
  omap (fun kd => match strip_prefix coll kd.1 with
                  | Some [id] => Some (id, kd.2)
                  | _ => None
                  end) (map_to_list r).

(** [getDocs(collection(db, ...coll))] *)
Definition getDocs (coll : list string) : M (list (string * doc)) :=
  fun e s => if remote_read_fails e coll then (None, s)
             else (Some (children coll (remote s)), s).

(** Starting an async function without awaiting it. *)
Definition spawn (t : task) : M unit :=
  modify (fun s => set_background s (background s ++ [t])).

(** ** storage.js *)

Definition getLedgersKey (e : env) : string :=
  match currentUser e with Some uid => ("ledgers_" ++ uid)%string | None => "ledgers_guest"%string end.
Definition getSettingsKey (e : env) : string :=
  match currentUser e with Some uid => ("settings_" ++ uid)%string | None => "settings_guest"%string end.
Definition getExpensesKey (e : env) : string :=
  match currentUser e with Some uid => ("expenses_" ++ uid)%string | None => "expenses_guest"%string end.
Definition getCategoriesKey (e : env) : string :=
  match currentUser e with Some uid => ("categories_" ++ uid)%string | None => "categories_guest"%string end.

(** getAllLedgers: a missing or unparseable value gives [{}]; it never throws. *)
Definition getAllLedgers_pure (e : env) (s : state) : gmap string ledger :=
  match ledgers_kv s !! getLedgersKey e with
  | Some (LColl c) => c
  | _ => ∅
  end.

Definition getAllLedgers : M (gmap string ledger) :=
  fun e s => (Some (getAllLedgers_pure e s), s).

(** getBackupSettings: defaults when missing or unparseable. *)
Definition getBackupSettings_pure (e : env) (s : state) : settings :=
  match settings_kv s !! getSettingsKey e with
  | Some (SStored v) => v
  | _ => default_settings
  end.

Definition getBackupSettings : M settings :=
  fun e s => (Some (getBackupSettings_pure e s), s).

(** updateBackupSettings({ lastSync }): returns false when the write fails. *)
Definition updateLastSync (ts : string) : M bool :=
  catch_ (e <- ask ;;
          current <- getBackupSettings ;;
          setSettingsItem (getSettingsKey e)
            (mkSettings (autoBackup current) (Some ts) (syncStatus current)) ;;;
          ret true) false.

(** getExpenses / getCategories: a missing (or, in the source, unparseable)
    value gives the empty list / the default categories; never throws. *)
Definition getExpenses_pure (e : env) (s : state) : list expense :=
  match expenses_kv s !! getExpensesKey e with Some l => l | None => [] end.

Definition getExpenses : M (list expense) := fun e s => (Some (getExpenses_pure e s), s).

Definition default_categories : list string :=
  ["Food"; "Travel"; "Study"; "Rent"; "Entertainment"; "Health"; "Salary"; "Other"]%string.

Definition getCategories : M (list string) :=
  fun e s => (Some (match categories_kv s !! getCategoriesKey e with
                    | Some l => l | None => default_categories end), s).

Definition ledgerPath (uid lid : string) : list string := ["users"; uid; "ledgers"; lid]%string.
Definition txnPath (uid lid tid : string) : list string :=
  ["users"; uid; "ledgers"; lid; "transactions"; tid]%string.
Definition expensePath (uid eid : string) : list string := ["users"; uid; "expenses"; eid]%string.
Definition categoriesPath (uid : string) : list string := ["users"; uid; "settings"; "categories"]%string.

(** saveLedger *)
Definition saveLedger (L : ledger) : M bool :=
  catch_ (e <- ask ;;
          allLedgers <- getAllLedgers ;;
          setLedgersItem (getLedgersKey e) (<[l_id L := L]> allLedgers) ;;;
          settings <- getBackupSettings ;;
          (if autoBackup settings then spawn (TSyncLedger L) else ret tt) ;;;
          ret true) false.

(** The balance loop of deleteTransaction:
    [if (t.type === 'credit') newBalance -= t.amount; else newBalance += t.amount;] *)
Definition delete_recompute (ts : list txn) : Z :=
  fold_left (fun newBalance t => if is_credit t then newBalance - t_amount t
                                 else newBalance + t_amount t) ts 0.

(** deleteTransaction(ledgerId, transactionId) *)
Definition deleteTransaction (ledgerId transactionId : string) : M bool :=
  catch_ (e <- ask ;;
          allLedgers <- getAllLedgers ;;
          match allLedgers !! ledgerId with
          | None => ret false
          | Some L =>
              match l_transactions L with
              | None => throw   (* undefined.filter *)
              | Some ts =>
                  let updatedTransactions :=
                    List.filter (fun t => negb (String.eqb (t_id t) transactionId)) ts in
                  let newBalance := delete_recompute updatedTransactions in
                  let updatedLedger := with_balance_txns L newBalance updatedTransactions in
                  setLedgersItem (getLedgersKey e) (<[ledgerId := updatedLedger]> allLedgers) ;;;
                  settings <- getBackupSettings ;;
                  (if (match currentUser e with Some _ => true | None => false end) && autoBackup settings
                   then spawn TSyncAll else ret tt) ;;;
                  ret true
              end
          end) false.

(** deleteLedger(ledgerId) *)
Definition deleteLedger (ledgerId : string) : M bool :=
  catch_ (e <- ask ;;
          allLedgers <- getAllLedgers ;;
          setLedgersItem (getLedgersKey e) (delete ledgerId allLedgers) ;;;
          settings <- getBackupSettings ;;
          (match currentUser e with
           | Some uid => if autoBackup settings then deleteDoc (ledgerPath uid ledgerId)
                         else ret tt
           | None => ret tt
           end) ;;;
          ret true) false.

(** One transaction write of syncLedgerToFirebase. Firestore's setDoc
    rejects a field whose value is [undefined] (the app's Firestore
    instance does not set [ignoreUndefinedProperties]), so a transaction
    without [balanceAfter] makes the write fail. *)
Definition setTxnDoc (uid lid : string) (t : txn) : M unit :=
  match t_balanceAfter t with
  | None => throw
  | Some _ => setDoc (txnPath uid lid (t_id t))
                     (DTxn (t_type t) (t_amount t) (t_date t) (t_balanceAfter t))
  end.

(** syncLedgerToFirebase: catches its own errors. *)
Definition syncLedgerToFirebase (L : ledger) : M unit :=
  catch_ (e <- ask ;;
          match currentUser e with
          | None => ret tt
          | Some uid =>
              setDoc (ledgerPath uid (l_id L))
                     (DLedger (l_name L) (l_balance L) (l_phone L) (l_address L) (now e)) ;;;
              match l_transactions L with
              | Some ts => forM_ ts (setTxnDoc uid (l_id L))
              | None => ret tt
              end
          end) tt.

(** syncAllToFirebase *)
Definition syncAllToFirebase : M bool :=
  catch_ (e <- ask ;;
          match currentUser e with
          | None => ret false
          | Some uid =>
              allLedgers <- getAllLedgers ;;
              forM_ (map snd (map_to_list allLedgers)) syncLedgerToFirebase ;;;
              allExpenses <- getExpenses ;;
              forM_ allExpenses (fun x => setDoc (expensePath uid (e_id x)) (DExpense x (now e))) ;;;
              categories <- getCategories ;;
              setDoc (categoriesPath uid) (DCategories categories (now e)) ;;;
              _ <- updateLastSync (now e) ;;
              ret true
          end) false.

(** The transaction object rebuilt by fetchFromFirebase: [{ id, ...data }]. *)
Definition txn_of_doc (iddoc : string * doc) : txn :=
  match iddoc.2 with
  | DTxn ty amt dt ba => mkTxn iddoc.1 ty amt dt ba
  | _ => mkTxn iddoc.1 "" 0 0 None
  end.

Definition ledger_of_doc (lid : string) (d : doc) (ts : list txn) : ledger :=
  match d with
  | DLedger name bal phone address _ => mkLedger lid name phone address bal (Some ts)
  | _ => mkLedger lid "" "" "" 0 (Some ts)
  end.

(** The body of fetchFromFirebase's loop over the ledger documents. *)
Definition fetch_ledger (uid : string) (acc : gmap string ledger) (ld : string * doc)
    : M (gmap string ledger) :=
  txnDocs <- getDocs ["users"; uid; "ledgers"; ld.1; "transactions"]%string ;;
  let transactions := map txn_of_doc txnDocs in
  ret (<[ld.1 := ledger_of_doc ld.1 ld.2 (sort_by_date transactions)]> acc).

(** fetchFromFirebase: errors propagate to the caller. *)
Definition fetchFromFirebase : M (gmap string ledger) :=
  e <- ask ;;
  match currentUser e with
  | None => ret ∅
  | Some uid =>
      ledgerDocs <- getDocs ["users"; uid; "ledgers"]%string ;;
      allLedgers <- foldM (fetch_ledger uid) ledgerDocs ∅ ;;
      setLedgersItem (getLedgersKey e) allLedgers ;;;
      ret allLedgers
  end.

(** ** A user session: transaction operations issued from the screens *)

(** AddTransactionScreen receives the ledger through navigation; here it is
    the ledger as currently stored. TransactionDetail calls
    deleteTransaction(ledger.id, transaction.id). *)
Inductive op :=
  | AddTxn (ledgerId genId type : string) (amount date : Z)
  | EditTxn (ledgerId editId type : string) (amount date : Z)
  | DelTxn (ledgerId transactionId : string).

Definition confirm_on (ledgerId : string) (editId : option string) (genId type : string)
    (amount date : Z) : M unit :=
  allLedgers <- getAllLedgers ;;
  match allLedgers !! ledgerId with
  | None => ret tt
  | Some L =>
      match handleConfirm L editId genId type amount date with
      | None => ret tt
      | Some L' => _ <- saveLedger L' ;; ret tt
      end
  end.

Definition run_op (o : op) : M unit :=
  match o with
  | AddTxn lid gid ty a d => confirm_on lid None gid ty a d
  | EditTxn lid eid ty a d => confirm_on lid (Some eid) "" ty a d
  | DelTxn lid tid => _ <- deleteTransaction lid tid ;; ret tt
  end.

Definition run_ops (ops : list op) : M unit := forM_ ops run_op.

End Store.

(* ------------------------------------------------------------------ *)
(** ** More of storage.js: clearing, expenses, categories, settings, and
    the screens that call them *)

Module StoreMore.
Import Store.

Definition set_expenses_kv (s : state) (m : gmap string (list expense)) : state :=
  mkState (ledgers_kv s) (settings_kv s) m (categories_kv s) (remote s) (background s).
Definition set_categories_kv (s : state) (m : gmap string (list string)) : state :=
  mkState (ledgers_kv s) (settings_kv s) (expenses_kv s) m (remote s) (background s).

(** [AsyncStorage.setItem(key, JSON.stringify(list))] for expenses and categories *)
Definition setExpensesItem (key : string) (l : list expense) : M unit :=
  fun e s => if local_write_fails e key then (None, s)
             else (Some tt, set_expenses_kv s (<[key := l]> (expenses_kv s))).

Definition setCategoriesItem (key : string) (l : list string) : M unit :=
  fun e s => if local_write_fails e key then (None, s)
             else (Some tt, set_categories_kv s (<[key := l]> (categories_kv s))).

(** [AsyncStorage.removeItem(key)] on a ledgers key; it rejects when
    writing the key does. *)
Definition removeLedgersItem (key : string) : M unit :=
  fun e s => if local_write_fails e key then (None, s)
             else (Some tt, set_ledgers_kv s (delete key (ledgers_kv s))).

(** [getDoc(ref)]: [Some None] when the document does not exist. *)
Definition getDoc (path : list string) : M (option doc) :=
  fun e s => if remote_read_fails e path then (None, s) else (Some (remote s !! path), s).

(** [await Promise.all(xs.map(f))]: every call is started; the result
    rejects when one of them does. *)
Fixpoint promise_all {A} (l : list A) (f : A -> M unit) : M unit :=
  match l with
  | [] => ret tt
  | x :: r => fun e s =>
      let '(o1, s1) := f x e s in
      let '(o2, s2) := promise_all r f e s1 in
      (match o1, o2 with Some _, Some _ => Some tt | _, _ => None end, s2)
  end.

(** storage.js clearAllData: removes the user's and the guest's ledgers
    keys, then deletes the ledger documents of the signed-in user; a
    Firebase error is caught and the result is still [true]. *)
Definition clearAllData : M bool :=
  catch_ (e <- ask ;;
          removeLedgersItem (getLedgersKey e) ;;;
          removeLedgersItem "ledgers_guest" ;;;
          (match currentUser e with
           | Some uid =>
               catch_ (snapshot <- getDocs ["users"; uid; "ledgers"]%string ;;
                       promise_all snapshot (fun d => deleteDoc (ledgerPath uid d.1))) tt
           | None => ret tt
           end) ;;;
          ret true) false.

(** [const index = allExpenses.findIndex(e => e.id === expense.id);
     if (index !== -1) allExpenses[index] = expense;]: [None] when no
    expense has the id. *)
Fixpoint replace_expense (x : expense) (l : list expense) : option (list expense) :=
  match l with
  | [] => None
  | y :: r => if String.eqb (e_id y) (e_id x) then Some (x :: r)
              else option_map (cons y) (replace_expense x r)
  end.

(** ... [else allExpenses.unshift(expense);] *)
Definition upsert_expense (x : expense) (l : list expense) : list expense :=
  match replace_expense x l with Some l' => l' | None => x :: l end.

(** saveExpense(expense) *)
Definition saveExpense (x : expense) : M bool :=
  catch_ (e <- ask ;;
          allExpenses <- getExpenses ;;
          setExpensesItem (getExpensesKey e) (upsert_expense x allExpenses) ;;;
          settings <- getBackupSettings ;;
          (match currentUser e with
           | Some uid => if autoBackup settings
                         then setDoc (expensePath uid (e_id x)) (DExpense x (now e))
                         else ret tt
           | None => ret tt
           end) ;;;
          ret true) false.

(** deleteExpense(expenseId) *)
Definition deleteExpense (expenseId : string) : M bool :=
  catch_ (e <- ask ;;
          allExpenses <- getExpenses ;;
          setExpensesItem (getExpensesKey e)
            (List.filter (fun x => negb (String.eqb (e_id x) expenseId)) allExpenses) ;;;
          settings <- getBackupSettings ;;
          (match currentUser e with
           | Some uid => if autoBackup settings then deleteDoc (expensePath uid expenseId)
                         else ret tt
           | None => ret tt
           end) ;;;
          ret true) false.

(** saveCategories(categories) *)
Definition saveCategories (categories : list string) : M bool :=
  catch_ (e <- ask ;;
          setCategoriesItem (getCategoriesKey e) categories ;;;
          settings <- getBackupSettings ;;
          (match currentUser e with
           | Some uid => if autoBackup settings
                         then setDoc (categoriesPath uid) (DCategories categories (now e))
                         else ret tt
           | None => ret tt
           end) ;;;
          ret true) false.

(** fetchCategoriesFromFirebase. The app writes only categories documents
    at this path; a document of another kind (no [list]) is taken as a
    failure. *)
Definition fetchCategoriesFromFirebase : M (list string) :=
  catch_ (e <- ask ;;
          match currentUser e with
          | None => ret []
          | Some uid =>
              snapshot <- getDoc (categoriesPath uid) ;;
              match snapshot with
              | Some (DCategories categories _) =>
                  setCategoriesItem (getCategoriesKey e) categories ;;; ret categories
              | Some _ => throw
              | None => getCategories
              end
          end) [].

(** updateBackupSettings({ autoBackup: value }) *)
Definition updateAutoBackup (value : bool) : M bool :=
  catch_ (e <- ask ;;
          current <- getBackupSettings ;;
          setSettingsItem (getSettingsKey e)
            (mkSettings value (lastSync current) (syncStatus current)) ;;;
          ret true) false.

(** Settings screen, handleSyncNow: it returns at once while a sync
    started from the screen is running ([syncingAll], the screen state seen
    by the call); otherwise it starts syncAllToFirebase, whose completion
    is not modelled (the background task [TSyncAll]). *)
Definition handleSyncNow (syncingAll : bool) : M unit :=
  if syncingAll then ret tt else spawn TSyncAll.

(** Settings screen, handleToggleBackup(value): the settings write is
    awaited, handleSyncNow is called without [await]. *)
Definition handleToggleBackup (syncingAll value : bool) : M unit :=
  _ <- updateAutoBackup value ;;
  (if value then handleSyncNow syncingAll else ret tt).

(** [String.prototype.trim]. A string holds the UTF-8 encoding of the
    text. trim removes, at both ends, the ECMAScript WhiteSpace and
    LineTerminator code points: U+0009 to U+000D, U+0020, U+00A0, U+1680,
    U+2000 to U+200A, U+2028, U+2029, U+202F, U+205F, U+3000 and U+FEFF. *)

(** One-byte and two-byte whitespace: U+0009 to U+000D, U+0020; U+00A0. *)
Definition is_ws1 (a : nat) : bool := ((9 <=? a) && (a <=? 13) || (a =? 32))%nat.
Definition is_ws2 (a b : nat) : bool := ((a =? 194) && (b =? 160))%nat.

(** Three-byte whitespace: U+1680, U+2000 to U+200A, U+2028, U+2029,
    U+202F, U+205F, U+3000, U+FEFF. *)
Definition is_ws3 (a b c : nat) : bool :=
  ((a =? 225) && (b =? 154) && (c =? 128)
   || (a =? 226) && (b =? 128)
        && ((128 <=? c) && (c <=? 138) || (c =? 168) || (c =? 169) || (c =? 175))
   || (a =? 226) && (b =? 129) && (c =? 159)
   || (a =? 227) && (b =? 128) && (c =? 128)
   || (a =? 239) && (b =? 187) && (c =? 191))%nat.

(** Number of bytes of the whitespace code point at the head of [l]
    (0 when [l] does not start with one). *)
Definition ws_len (l : list Ascii.ascii) : nat :=
  match map Ascii.nat_of_ascii (firstn 3 l) with
  | a :: r =>
      if is_ws1 a then 1
      else match r with
           | b :: r' =>
               if is_ws2 a b then 2
               else match r' with
                    | c :: _ => if is_ws3 a b c then 3 else 0
                    | [] => 0
                    end
           | [] => 0
           end
  | [] => 0
  end%nat.

(** The same at the end of a string, given reversed: [x :: y :: z :: _]
    is a string ending with the bytes [z y x]. *)
Definition ws_len_rev (r : list Ascii.ascii) : nat :=
  match map Ascii.nat_of_ascii (firstn 3 r) with
  | x :: q =>
      if is_ws1 x then 1
      else match q with
           | y :: q' =>
               if is_ws2 y x then 2
               else match q' with
                    | z :: _ => if is_ws3 z y x then 3 else 0
                    | [] => 0
                    end
           | [] => 0
           end
  | [] => 0
  end%nat.

(** Drop whitespace code points from the head while there are any; each
    step drops at least one byte, so [length l] steps suffice. *)
Fixpoint drop_ws (len : list Ascii.ascii -> nat) (fuel : nat) (l : list Ascii.ascii)
    : list Ascii.ascii :=
  match fuel with
  | O => l
  | S f => match len l with
           | O => l
           | k => drop_ws len f (skipn k l)
           end
  end.

Definition trim_start (l : list Ascii.ascii) : list Ascii.ascii :=
  drop_ws ws_len (length l) l.

Definition trim_end (l : list Ascii.ascii) : list Ascii.ascii :=
  rev (drop_ws ws_len_rev (length l) (rev l)).

Definition trim (s : string) : string :=
  string_of_list_ascii (trim_end (trim_start (list_ascii_of_string s))).

(** Home screen, handleAddLedger; [genId] is the value of generateId().
    The new object has no phone or address; they read as [''] wherever
    the code reads them ([ledger.phone || '']). *)
Definition handleAddLedger (newLedgerName genId : string) : M unit :=
  if String.eqb (trim newLedgerName) "" then ret tt
  else _ <- saveLedger (mkLedger genId (trim newLedgerName) "" "" 0 (Some [])) ;; ret tt.

End StoreMore.

(* ------------------------------------------------------------------ *)
(** ** Balance and amount utilities of part_001 *)

Module Calc.

(** calculateBalance(currentBalance, type, amount) *)
Definition calculateBalance (currentBalance : Z) (type : string) (amount : Z) : Z :=
  if String.eqb type "credit" then currentBalance + amount else currentBalance - amount.

(** The text of formatBalance: [You will GET ...], [You will GIVE ...] with
    the printed amount, or [Settled]. *)
Inductive balance_text := GetText (amount : Z) | GiveText (amount : Z) | SettledText.

Record formatted := mkFormatted {
  f_text : balance_text;
  isPositive : option bool;   (* null = None *)
  f_amount : Z
}.

(** formatBalance(balance) *)
Definition formatBalance (balance : Z) : formatted :=
  if 0 <? balance then mkFormatted (GetText balance) (Some true) balance
  else if balance <? 0 then mkFormatted (GiveText (Z.abs balance)) (Some false) (Z.abs balance)
  else mkFormatted SettledText None 0.

(** The characters kept by [expr.replace(/[^0-9.+-/*]/g, '')]: the class
    is [0-9], [.], the range [+-/] and [*]. *)
Definition kept_char (c : Ascii.ascii) : bool :=
  let n := Ascii.nat_of_ascii c in
  (((48 <=? n) && (n <=? 57)) || (n =? 46) || ((43 <=? n) && (n <=? 47)) || (n =? 42))%nat.

Definition cleanExpr (expr : string) : string :=
  string_of_list_ascii (List.filter kept_char (list_ascii_of_string expr)).

(** evaluateMathExpression up to the evaluation: [inl 0] for the early
    [return 0]s, [inr cleanExpr] for the text handed to [new Function]
    (whose floating-point evaluation is outside the model). *)
Definition evaluate_prefix (expr : string) : Z + string :=
  if String.eqb (StoreMore.trim expr) "" then inl 0
  else let c := cleanExpr expr in
       if String.eqb c "" then inl 0 else inr c.

End Calc.

(* ------------------------------------------------------------------ *)
(** ** Backup files: JSON values, export, import, validation *)

Module Backup.

(** Values produced by JSON.parse, plus [undefined] for a missing property.
    Object keys of a parsed object are distinct. *)
Inductive jsval :=
  | JUndefined
  | JNull
  | JBool (b : bool)
  | JNum (n : Z)
  | JStr (s : string)
  | JArr (l : list jsval)
  | JObj (fields : list (string * jsval)).

Fixpoint assoc (k : string) (fs : list (string * jsval)) : option jsval :=
  match fs with
  | [] => None
  | (k', v) :: r => if String.eqb k k' then Some v else assoc k r
  end.

(** Property read [v.k]; [None] is the TypeError on null / undefined.
    The keys read here are never array indices. *)
Definition get (v : jsval) (k : string) : option jsval :=
  match v with
  | JUndefined | JNull => None
  | JObj fs => Some (match assoc k fs with Some x => x | None => JUndefined end)
  | JArr l => Some (if String.eqb k "length" then JNum (Z.of_nat (length l)) else JUndefined)
  | JStr s => Some (if String.eqb k "length" then JNum (Z.of_nat (String.length s)) else JUndefined)
  | _ => Some JUndefined
  end.

(** JavaScript truthiness ([!v] is [negb (truthy v)]). *)
Definition truthy (v : jsval) : bool :=
  match v with
  | JUndefined | JNull => false
  | JBool b => b
  | JNum n => negb (Z.eqb n 0)
  | JStr s => negb (String.eqb s "")
  | JArr _ | JObj _ => true
  end.

Definition typeof (v : jsval) : string :=
  match v with
  | JUndefined => "undefined"
  | JNull | JArr _ | JObj _ => "object"
  | JBool _ => "boolean"
  | JNum _ => "number"
  | JStr _ => "string"
  end.

Definition isArray (v : jsval) : bool := match v with JArr _ => true | _ => false end.

(** The values visited by [for (const k in v) ... v[k]] on an object-typed value. *)
Definition for_in_values (v : jsval) : list jsval :=
  match v with
  | JObj fs => map snd fs
  | JArr l => l
  | _ => []
  end.

(** [Object.keys(v).length] on an object-typed value *)
Definition keys_count (v : jsval) : nat :=
  match v with
  | JObj fs => length fs
  | JArr l => length l
  | _ => 0
  end.

(** The loop of validateBackupFile over [data.ledgers]. *)
Fixpoint check_ledgers (ls : list jsval) : bool :=
  match ls with
  | [] => true
  | ledger :: r =>
      match get ledger "id", get ledger "name", get ledger "balance",
            get ledger "transactions" with
      | Some id, Some name, Some balance, Some transactions =>
          if negb (truthy id) || negb (truthy name)
             || negb (String.eqb (typeof balance) "number") then false
          else if truthy transactions && negb (isArray transactions) then false
          else check_ledgers r
      | _, _, _, _ => false   (* TypeError, caught: return false *)
      end
  end.

(** validateBackupFile(data) *)
Definition validateBackupFile (data : jsval) : bool :=
  match get data "version", get data "ledgers" with
  | Some version, Some ledgers =>
      if negb (truthy version) || negb (truthy ledgers) then false
      else if negb (String.eqb (typeof ledgers) "object") then false
      else check_ledgers (for_in_values ledgers)
  | _, _ => false   (* TypeError, caught: return false *)
  end.

(** AsyncStorage: a parseable JSON text, or a corrupt one. *)
Inductive blob := BCorrupt | BJson (v : jsval).

Abbreviation kvstore := (gmap string blob).

Definition userKey (prefix : string) (user : option string) : string :=
  match user with
  | Some uid => (prefix ++ "_" ++ uid)%string
  | None => (prefix ++ "_guest")%string
  end.

(** storage.js getLedgersKey *)
Definition getLedgersKey (user : option string) : string := userKey "ledgers" user.

(** storage.js getAllLedgers: [{}] when missing or unparseable. *)
Definition getAllLedgers (user : option string) (kv : kvstore) : jsval :=
  match kv !! getLedgersKey user with
  | Some (BJson v) => v
  | _ => JObj []
  end.

(** part_001: [const LEDGERS_KEY = 'ledgers';] *)
Definition LEDGERS_KEY : string := "ledgers".

Record export_env := mkExportEnv {
  ex_user : option string;
  ex_now : string;
  ex_web : bool;               (* Platform.OS === 'web' *)
  ex_write_fails : bool;       (* FileSystem.writeAsStringAsync rejects *)
  ex_share_fails : bool        (* Sharing.shareAsync rejects *)
}.

Inductive export_result := ExportOk (filePath : string) | ExportFail.

(** [const x = json ? JSON.parse(json) : [];] followed by [x.length] *)
Definition read_list_or_empty (b : option blob) : option jsval :=
  match b with
  | None => Some (JArr [])
  | Some BCorrupt => None
  | Some (BJson v) => match get v "length" with Some _ => Some v | None => None end
  end.

(** exportDataToBackup: the result and the JSON value of the file written
    (the file holds [JSON.stringify(backupData)]; reading it back with
    JSON.parse gives [backupData] again, all its parts being parsed JSON). *)
Definition exportDataToBackup (ee : export_env) (kv : kvstore) : export_result * option jsval :=
  let allLedgers := getAllLedgers (ex_user ee) kv in
  match get allLedgers "x" with
  | None => (ExportFail, None)   (* Object.keys(null) *)
  | Some _ =>
      match read_list_or_empty (kv !! userKey "expenses" (ex_user ee)),
            read_list_or_empty (kv !! userKey "categories" (ex_user ee)) with
      | Some expenses, Some categories =>
          let backupData :=
            JObj [("version", JStr "1.0"); ("exportDate", JStr (ex_now ee));
                  ("ledgers", allLedgers); ("expenses", expenses);
                  ("categories", categories)]%string in
          if ex_web ee then (ExportOk "web_download", Some backupData)
          else if ex_write_fails ee then (ExportFail, None)
          else if ex_share_fails ee then (ExportFail, Some backupData)
          else (ExportOk "documentDirectory/okcredit_backup.json", Some backupData)
      | _, _ => (ExportFail, None)
      end
  end.

(** Reading a chosen file: it cannot be read, or its text parses to a value
    or does not parse ([None]). *)
Inductive file_read := ReadFail | ReadText (parsed : option jsval).

Record import_env := mkImportEnv {
  im_web : bool;                            (* Platform.OS === 'web' *)
  im_web_file : option file_read;           (* e.target.files[0], read *)
  im_pick : option string;                  (* DocumentPicker; None = canceled *)
  im_read : string -> file_read             (* FileSystem.readAsStringAsync + JSON.parse *)
}.

Inductive import_result := ImportOk (ledgersCount : nat) | ImportFail (error : string).

(** The file the import reads, or the early failure before any read. *)
Definition selected_content (ie : import_env) (fileUri : option string) : string + file_read :=
  if im_web ie then
    match im_web_file ie with
    | None => inl "No file selected"%string
    | Some c => inr c
    end
  else
    let picked := match im_pick ie with
                  | None => inl "Cancelled"%string
                  | Some u => inr (im_read ie u)
                  end in
    match fileUri with
    | Some u => if String.eqb u "" then picked else inr (im_read ie u)
    | None => picked
    end.

(** From the parsed file on: validate, then one setItem. *)
Definition import_content (c : file_read) (setItem_fails : bool) (kv : kvstore)
    : import_result * kvstore :=
  match c with
  | ReadFail => (ImportFail "read error", kv)
  | ReadText None => (ImportFail "JSON parse error", kv)
  | ReadText (Some backupData) =>
      if negb (validateBackupFile backupData) then (ImportFail "Invalid backup file format", kv)
      else match get backupData "ledgers" with
           | Some ledgers =>
               if setItem_fails then (ImportFail "write error", kv)
               else (ImportOk (keys_count ledgers), <[LEDGERS_KEY := BJson ledgers]> kv)
           | None => (ImportFail "TypeError", kv)
           end
  end%string.

(** importDataFromBackup(fileUri) *)
Definition importDataFromBackup (ie : import_env) (setItem_fails : bool)
    (fileUri : option string) (kv : kvstore) : import_result * kvstore :=
  match selected_content ie fileUri with
  | inl err => (ImportFail err, kv)
  | inr c => import_content c setItem_fails kv
  end.

(** Spec side: what a backup collection is compared by, per ledger key:
    the id, name, balance and number of transactions. *)
Definition ledger_summary (v : jsval) : list (string * option jsval * option jsval * option jsval * option nat) :=
  map (fun kl => (kl.1, get kl.2 "id", get kl.2 "name", get kl.2 "balance",
                  match get kl.2 "transactions" with
                  | Some (JArr l) => Some (length l)
                  | _ => None
                  end))
      (match v with JObj fs => fs | _ => [] end).

(** Spec side, after the words of the backup-format sentence: a field is
    present when the object has it as a key. *)
Definition has_field (v : jsval) (k : string) : bool :=
  match v with
  | JObj fs => match assoc k fs with Some _ => true | None => false end
  | _ => false
  end.

Definition field (v : jsval) (k : string) : jsval :=
  match get v k with Some x => x | None => JUndefined end.

Definition spec_valid (data : jsval) : bool :=
  has_field data "version" && has_field data "ledgers" &&
  String.eqb (typeof (field data "ledgers")) "object" &&
  forallb (fun l => has_field l "id" && has_field l "name" &&
                    String.eqb (typeof (field l "balance")) "number" &&
                    (negb (has_field l "transactions") || isArray (field l "transactions")))
          (for_in_values (field data "ledgers")).

(** ** Concrete backups *)

Definition ledger_asha : jsval :=
  JObj [("id", JStr "L"); ("name", JStr "Asha"); ("balance", JNum 0); ("transactions", JArr [])]%string.

Definition kv_one : kvstore := <["ledgers_guest" := BJson (JObj [("L", ledger_asha)])]> ∅.

Definition export_web : export_env := mkExportEnv None "2026-01-01T00:00:00Z" true false false.

Definition backup_one : jsval :=
  JObj [("version", JStr "1.0"); ("exportDate", JStr "2026-01-01T00:00:00Z");
        ("ledgers", JObj [("L", ledger_asha)]); ("expenses", JArr []); ("categories", JArr [])]%string.

Definition import_web (f : jsval) : import_env :=
  mkImportEnv true (Some (ReadText (Some f))) None (fun _ => ReadFail).

(** A backup without a [ledgers] key. *)
Definition backup_no_ledgers : jsval := JObj [("version", JStr "1.0")]%string.

(** A ledger whose [transactions] is present but null. *)
Definition backup_null_transactions : jsval :=
  JObj [("version", JStr "1.0");
        ("ledgers", JObj [("L", JObj [("id", JStr "L"); ("name", JStr "Asha");
                                      ("balance", JNum 0); ("transactions", JNull)])])]%string.

(** A backup whose [version] is present but empty. *)
Definition backup_empty_version : jsval :=
  JObj [("version", JStr ""); ("ledgers", JObj [("L", ledger_asha)])]%string.

End Backup.

(* ------------------------------------------------------------------ *)
(** ** part_001 clearAllData *)

Module BackupMore.
Import Backup.

(** [await AsyncStorage.removeItem(LEDGERS_KEY); return true;], [false]
    when the removal rejects. *)
Definition clearAllData (remove_fails : bool) (kv : kvstore) : bool * kvstore :=
  if remove_fails then (false, kv) else (true, delete LEDGERS_KEY kv).

End BackupMore.

(* ------------------------------------------------------------------ *)
(** * Proofs about backup export, import and validation *)

Module BackupProofs.
Import Backup.

Lemma ledgers_key_ne (user : option string) : getLedgersKey user <> LEDGERS_KEY.
Proof. destruct user; unfold getLedgersKey, userKey, LEDGERS_KEY; simpl; discriminate. Qed.

(** importDataFromBackup writes at most the key ["ledgers"]. *)
Lemma import_other_keys (ie : import_env) (fails : bool) (uri : option string) (kv : kvstore)
    (k : string) :
  k <> LEDGERS_KEY -> (importDataFromBackup ie fails uri kv).2 !! k = kv !! k.
Proof.
  intros Hk. unfold importDataFromBackup.
  destruct (selected_content ie uri) as [err|c]; [reflexivity|].
  unfold import_content. destruct c as [|[data|]]; try reflexivity.
  destruct (validateBackupFile data); cbn [negb]; [|reflexivity].
  destruct (get data "ledgers"); [|reflexivity].
  destruct fails; [reflexivity|]. cbn [snd]. by rewrite lookup_insert_ne by congruence.
Qed.

(** C3 (code bug): a restore is never visible. importDataFromBackup
    writes the backup's ledgers under the key ["ledgers"], which
    getAllLedgers never reads (it reads ["ledgers_<uid>"] or
    ["ledgers_guest"]), so on every store the collection getAllLedgers
    returns after an import is the one that was there before it. Export a
    guest's store holding ledger "L", lose the data (an empty store, as
    after clearing or on a new install) and import the exported file: the
    import reports success with 1 ledger, yet getAllLedgers has no ledger,
    so ids, names, balances and transaction counts differ from the
    original collection. *)
Theorem backup_restore_not_visible :
  (forall (ie : import_env) (fails : bool) (uri : option string) (kv : kvstore)
          (user : option string),
     getAllLedgers user (importDataFromBackup ie fails uri kv).2 = getAllLedgers user kv) /\
  exportDataToBackup export_web kv_one = (ExportOk "web_download", Some backup_one) /\
  (importDataFromBackup (import_web backup_one) false None ∅).1 = ImportOk 1 /\
  ledger_summary (getAllLedgers None (importDataFromBackup (import_web backup_one) false None ∅).2)
    <> ledger_summary (getAllLedgers None kv_one).
Proof.
  split.
  - intros ie fails uri kv user. unfold getAllLedgers.
    rewrite import_other_keys by apply ledgers_key_ne. reflexivity.
  - split; [vm_compute; reflexivity|]. split; [vm_compute; reflexivity|].
    vm_compute. discriminate.
Qed.

(** The import stores the backup's ledgers under ["ledgers"]: restoring the
    same backup into a cleared store leaves getAllLedgers empty. *)
Lemma import_into_cleared_store :
  (importDataFromBackup (import_web backup_one) false None ∅).1 = ImportOk 1 /\
  (importDataFromBackup (import_web backup_one) false None ∅).2 !! LEDGERS_KEY
    = Some (BJson (JObj [("L", ledger_asha)])) /\
  getAllLedgers None (importDataFromBackup (import_web backup_one) false None ∅).2 = JObj [].
Proof. vm_compute. repeat split. Qed.

(** C7: a parsed backup that fails validateBackupFile (one without a
    [ledgers] key, for instance) makes importDataFromBackup return a failure
    and leaves the storage as it was. *)
Theorem import_invalid_no_mutation (ie : import_env) (fails : bool) (uri : option string)
    (kv : kvstore) (data : jsval) :
  selected_content ie uri = inr (ReadText (Some data)) ->
  (get data "ledgers" = Some JUndefined -> validateBackupFile data = false) /\
  (validateBackupFile data = false ->
   exists err, importDataFromBackup ie fails uri kv = (ImportFail err, kv)).
Proof.
  intros Hsel. split.
  - intros Hl. unfold validateBackupFile. rewrite Hl.
    destruct (get data "version"); [|reflexivity]. simpl. by rewrite orb_true_r.
  - intros Hv. unfold importDataFromBackup. rewrite Hsel. simpl. rewrite Hv. simpl. eauto.
Qed.

Lemma import_invalid_no_mutation_witness :
  validateBackupFile backup_no_ledgers = false /\
  importDataFromBackup (import_web backup_no_ledgers) false None kv_one
  = (ImportFail "Invalid backup file format", kv_one).
Proof.
  destruct (import_invalid_no_mutation (import_web backup_no_ledgers) false None kv_one
              backup_no_ledgers eq_refl) as [H1 H2].
  assert (Hv : validateBackupFile backup_no_ledgers = false) by (apply H1; reflexivity).
  split; [exact Hv|].
  destruct (H2 Hv) as [err Herr]. rewrite Herr.
  vm_compute in Herr. injection Herr as <-. reflexivity.
Defined.

(** What validateBackupFile asks of one ledger value. *)
Lemma check_ledgers_iff (ls : list jsval) :
  check_ledgers ls = true <->
  Forall (fun l => exists id name balance transactions,
            get l "id" = Some id /\ get l "name" = Some name /\
            get l "balance" = Some balance /\ get l "transactions" = Some transactions /\
            truthy id = true /\ truthy name = true /\ typeof balance = "number"%string /\
            (truthy transactions = true -> isArray transactions = true)) ls.
Proof.
  induction ls as [|l ls IH]; simpl.
  - split; [constructor|reflexivity].
  - rewrite Forall_cons, <- IH.
    destruct (get l "id") as [id|] eqn:Hid;
    [|split; [discriminate|intros [[? [? [? [? [H _]]]]] _]; congruence]].
    destruct (get l "name") as [name|] eqn:Hname;
    [|split; [discriminate|intros [[? [? [? [? [_ [H _]]]]]] _]; congruence]].
    destruct (get l "balance") as [bal|] eqn:Hbal;
    [|split; [discriminate|intros [[? [? [? [? [_ [_ [H _]]]]]]] _]; congruence]].
    destruct (get l "transactions") as [txs|] eqn:Htxs;
    [|split; [discriminate|intros [[? [? [? [? [_ [_ [_ [H _]]]]]]]] _]; congruence]].
    split.
    + intros H.
      destruct (truthy id) eqn:Ti; [|discriminate].
      destruct (truthy name) eqn:Tn; [|discriminate].
      destruct (String.eqb (typeof bal) "number") eqn:Tb; [|discriminate].
      simpl in H. apply String.eqb_eq in Tb.
      destruct (truthy txs && negb (isArray txs)) eqn:Ta; [discriminate|].
      split; [|exact H].
      exists id, name, bal, txs. repeat (split; [done|]).
      intros Tt. rewrite Tt in Ta. simpl in Ta. by apply negb_false_iff.
    + intros [[id' [name' [bal' [txs' [Hi [Hn [Hb [Ht [Ti [Tn [Tb Ta]]]]]]]]]]] Hr].
      injection Hi as <-. injection Hn as <-. injection Hb as <-. injection Ht as <-.
      rewrite Ti, Tn, Tb. simpl.
      destruct (truthy txs) eqn:Tt; simpl; [rewrite (Ta eq_refl); simpl|]; exact Hr.
Qed.

(** C6 (as the code has it): validateBackupFile(data) is true exactly when
    [data.version] and [data.ledgers] are truthy, [typeof data.ledgers] is
    ["object"], and every ledger value visited by for-in is neither null nor
    undefined, has truthy [id] and [name], a [balance] of type ["number"],
    and a [transactions] field that is falsy or an array. *)
Theorem validateBackupFile_iff (data : jsval) :
  validateBackupFile data = true <->
  exists version ledgers,
    get data "version" = Some version /\ get data "ledgers" = Some ledgers /\
    truthy version = true /\ truthy ledgers = true /\ typeof ledgers = "object"%string /\
    Forall (fun l => exists id name balance transactions,
              get l "id" = Some id /\ get l "name" = Some name /\
              get l "balance" = Some balance /\ get l "transactions" = Some transactions /\
              truthy id = true /\ truthy name = true /\ typeof balance = "number"%string /\
              (truthy transactions = true -> isArray transactions = true))
           (for_in_values ledgers).
Proof.
  unfold validateBackupFile.
  destruct (get data "version") as [ver|] eqn:Hv;
  [|split; [discriminate|intros [? [? [H _]]]; congruence]].
  destruct (get data "ledgers") as [leds|] eqn:Hl;
  [|split; [discriminate|intros [? [? [_ [H _]]]]; congruence]].
  split.
  - intros H.
    destruct (truthy ver) eqn:Tv; [|discriminate].
    destruct (truthy leds) eqn:Tl; [|discriminate].
    destruct (String.eqb (typeof leds) "object") eqn:To; [|discriminate].
    apply String.eqb_eq in To. simpl in H. apply check_ledgers_iff in H.
    exists ver, leds. by repeat split.
  - intros [ver' [leds' [Hv' [Hl' [Tv [Tl [To Hall]]]]]]].
    injection Hv' as <-. injection Hl' as <-.
    rewrite Tv, Tl, To. simpl. by apply check_ledgers_iff.
Qed.

Lemma validateBackupFile_iff_witness : validateBackupFile backup_one = true.
Proof.
  apply (proj2 (validateBackupFile_iff backup_one)).
  exists (JStr "1.0"), (JObj [("L", ledger_asha)])%string.
  repeat (split; [reflexivity|]).
  constructor; [|constructor].
  exists (JStr "L"), (JStr "Asha"), (JNum 0), (JArr []).
  repeat (split; [reflexivity|]). reflexivity.
Defined.

(** C6 fails as stated, both ways: a ledger with [transactions: null] is
    accepted although the field is present and not an array, and a backup
    whose [version] is the empty string is rejected although every field is
    present and well typed. *)
Lemma validateBackupFile_truthiness :
  validateBackupFile backup_null_transactions = true /\
  spec_valid backup_null_transactions = false /\
  validateBackupFile backup_empty_version = false /\
  spec_valid backup_empty_version = true.
Proof. vm_compute. repeat split. Qed.

End BackupProofs.

(* ------------------------------------------------------------------ *)
(** ** Concrete sessions used by the examples below *)

Module Samples.
Import Store.

(** A guest session where every write succeeds. *)
Definition env_guest : env := mkEnv None "2026-01-01T00:00:00Z" (fun _ => false) (fun _ => false) (fun _ => false).

Definition ledger_new : ledger := mkLedger "L" "Asha" "" "" 0 (Some []).
Definition st_new : state :=
  mkState (<["ledgers_guest" := LColl (<["L" := ledger_new]> ∅)]> ∅) ∅ ∅ ∅ ∅ [].

(** Add credit 100, add debit 30, delete the debit. *)
Definition ops_add_add_delete : list op :=
  [AddTxn "L" "t1" "credit" 100 1; AddTxn "L" "t2" "debit" 30 2; DelTxn "L" "t2"]%string.

(** A ledger kept by the add path: [credit 100, debit 30], balances [100, 70]. *)
Definition ledger_two : ledger :=
  mkLedger "L" "Asha" "" "" 70
    (Some [mkTxn "t1" "credit" 100 1 (Some 100); mkTxn "t2" "debit" 30 2 (Some 70)]).
Definition st_two : state :=
  mkState (<["ledgers_guest" := LColl (<["L" := ledger_two]> ∅)]> ∅) ∅ ∅ ∅ ∅ [].

(** A signed-in user "u" whose ledger "L" is also in Firestore. *)
Definition env_user : env := mkEnv (Some "u") "2026-01-01T00:00:00Z" (fun _ => false) (fun _ => false) (fun _ => false).

Definition st_synced (auto : bool) : state :=
  mkState (<["ledgers_u" := LColl (<["L" := ledger_new]> ∅)]> ∅)
          (<["settings_u" := SStored (mkSettings auto None "idle")]> ∅) ∅ ∅
          (<[ledgerPath "u" "L" := DLedger "Asha" 0 "" "" "2025-12-31T00:00:00Z"]> ∅) [].

(** The same user, with the write of ledger document "L" failing. *)
Definition env_ledger_write_fails : env :=
  mkEnv (Some "u") "2026-01-01T00:00:00Z" (fun _ => false)
        (fun p => bool_decide (p = ledgerPath "u" "L")) (fun _ => false).

End Samples.

(** Samples for the clearing, expense and category operations. *)
Module SamplesMore.
Import Store StoreMore Samples.

Definition exp_tea : expense := mkExpense "e1" "Tea" 20.

(** A ledger name made of two no-break spaces (U+00A0, bytes C2 A0) around
    an ideographic space (U+3000, bytes E3 80 80). *)
Definition nbsp_name : string :=
  string_of_list_ascii (map Ascii.ascii_of_nat [194; 160; 227; 128; 128; 194; 160]%nat).
Definition exp_bus : expense := mkExpense "e2" "Bus" 15.

(** A guest with one stored expense. *)
Definition st_expenses : state := mkState ∅ ∅ (<["expenses_guest" := [exp_tea]]> ∅) ∅ ∅ [].

(** User "u", auto-backup on, whose ledger "L" and its transaction "t1"
    are in Firestore and locally. *)
Definition st_cloud : state :=
  mkState (<["ledgers_u" := LColl {["L" := ledger_new]}]> (<["ledgers_guest" := LColl ∅]> ∅))
          (<["settings_u" := SStored (mkSettings true None "idle")]> ∅) ∅ ∅
          (<[txnPath "u" "L" "t1" := DTxn "credit" 100 1 (Some 100)]>
            (<[ledgerPath "u" "L" := DLedger "Asha" 100 "" "" "2025-12-31T00:00:00Z"]> ∅)) [].

End SamplesMore.

(* ------------------------------------------------------------------ *)
(** * Proofs about the ledger store *)

Module StoreProofs.
Import Store Samples.

(** ** Sorting by date *)

Lemma insert_by_date_perm (x : txn) (l : list txn) :
  Permutation (insert_by_date x l) (x :: l).
Proof.
  induction l as [|y ys IH]; simpl; [reflexivity|].
  destruct (Z.leb (t_date y) (t_date x)); [|reflexivity].
  rewrite IH. apply perm_swap.
Qed.

Lemma sort_by_date_perm_acc (l acc : list txn) :
  Permutation (fold_left (fun acc x => insert_by_date x acc) l acc) (l ++ acc).
Proof.
  revert acc; induction l as [|x r IH]; intros acc; simpl; [reflexivity|].
  rewrite IH, insert_by_date_perm. symmetry. apply Permutation_middle.
Qed.

Lemma sort_by_date_perm (l : list txn) : Permutation (sort_by_date l) l.
Proof. unfold sort_by_date. rewrite sort_by_date_perm_acc. by rewrite app_nil_r. Qed.

Lemma HdRel_insert_by_date (y x : txn) (l : list txn) :
  HdRel date_le y l -> date_le y x -> HdRel date_le y (insert_by_date x l).
Proof.
  intros Hhd Hyx. destruct l as [|z zs]; simpl.
  - constructor. exact Hyx.
  - destruct (Z.leb (t_date z) (t_date x)); constructor; [inversion Hhd; auto | exact Hyx].
Qed.

Lemma insert_by_date_sorted (x : txn) (l : list txn) :
  Sorted date_le l -> Sorted date_le (insert_by_date x l).
Proof.
  induction l as [|y ys IH]; intros Hs; simpl.
  - repeat constructor.
  - destruct (Z.leb (t_date y) (t_date x)) eqn:Hle.
    + apply Z.leb_le in Hle. inversion Hs; subst.
      constructor; [auto|]. apply HdRel_insert_by_date; auto.
    + apply Z.leb_gt in Hle. constructor; [exact Hs|].
      constructor. unfold date_le. lia.
Qed.

Lemma sort_by_date_sorted (l : list txn) : Sorted date_le (sort_by_date l).
Proof.
  unfold sort_by_date.
  assert (H : forall acc, Sorted date_le acc ->
            Sorted date_le (fold_left (fun acc x => insert_by_date x acc) l acc)).
  { induction l as [|x r IH]; intros acc Hacc; simpl; [exact Hacc|].
    apply IH, insert_by_date_sorted, Hacc. }
  apply H. constructor.
Qed.

(** ** The running-balance walk *)

Lemma signed_set_balanceAfter (b : Z) (t : txn) : signed (set_balanceAfter b t) = signed t.
Proof. reflexivity. Qed.

Lemma assign_running_final (r : Z) (l : list txn) :
  (assign_running r l).2 = r + signed_sum l.
Proof.
  revert r; induction l as [|t l IH]; intros r; simpl; [lia|].
  destruct (assign_running _ l) as [l' fin] eqn:E. simpl.
  specialize (IH (if is_credit t then r + t_amount t else r - t_amount t)).
  rewrite E in IH. simpl in IH. rewrite IH. unfold signed.
  destruct (is_credit t); lia.
Qed.

Lemma assign_running_strip (r : Z) (l : list txn) :
  map strip (assign_running r l).1 = map strip l.
Proof.
  revert r; induction l as [|t l IH]; intros r; simpl; [reflexivity|].
  destruct (assign_running _ l) as [l' fin] eqn:E. simpl.
  specialize (IH (if is_credit t then r + t_amount t else r - t_amount t)).
  rewrite E in IH. simpl in IH. rewrite IH. reflexivity.
Qed.

Lemma assign_running_sum (r : Z) (l : list txn) :
  signed_sum (assign_running r l).1 = signed_sum l.
Proof.
  revert r; induction l as [|t l IH]; intros r; simpl; [reflexivity|].
  destruct (assign_running _ l) as [l' fin] eqn:E. simpl.
  specialize (IH (if is_credit t then r + t_amount t else r - t_amount t)).
  rewrite E in IH. simpl in IH. rewrite IH. reflexivity.
Qed.

Lemma assign_running_dates_sorted (r : Z) (l : list txn) :
  Sorted date_le l -> Sorted date_le (assign_running r l).1.
Proof.
  revert r; induction l as [|t l IH]; intros r Hs; simpl; [constructor|].
  destruct (assign_running _ l) as [l' fin] eqn:E. simpl.
  inversion Hs as [|? ? Hs' Hhd]; subst.
  pose proof (IH (if is_credit t then r + t_amount t else r - t_amount t) Hs') as IHs.
  rewrite E in IHs. simpl in IHs. constructor; [exact IHs|].
  destruct l as [|u l]; simpl in E.
  - injection E as <- _. constructor.
  - destruct (assign_running _ l) as [l'' fin'] eqn:E'. injection E as <- _.
    constructor. inversion Hhd; subst. exact H0.
Qed.

Lemma assign_running_prefix (r : Z) (l : list txn) (i : nat) (t : txn) :
  (assign_running r l).1 !! i = Some t ->
  t_balanceAfter t = Some (r + signed_sum (take (S i) (assign_running r l).1)).
Proof.
  revert r i t; induction l as [|t0 l IH]; intros r i t Hi; simpl in *; [done|].
  destruct (assign_running _ l) as [l' fin] eqn:E. simpl in *.
  specialize (IH (if is_credit t0 then r + t_amount t0 else r - t_amount t0)).
  rewrite E in IH. simpl in IH.
  destruct i as [|j]; simpl in Hi.
  - injection Hi as <-. cbn [take signed_sum t_balanceAfter set_balanceAfter].
    rewrite signed_set_balanceAfter, take_0. f_equal. unfold signed. simpl.
    destruct (is_credit t0); lia.
  - rewrite (IH j t Hi). cbn [take signed_sum].
    rewrite signed_set_balanceAfter. f_equal. unfold signed.
    destruct (is_credit t0); lia.
Qed.

Lemma assign_running_ok (l : list txn) : running_ok (assign_running 0 l).1.
Proof. intros i t Hi. rewrite (assign_running_prefix 0 l i t Hi). reflexivity. Qed.

(** Shape of a successful handleConfirm. *)
Lemma handleConfirm_some (L : ledger) (ts : list txn) (editId : option string)
    (genId type : string) (amt date : Z) :
  l_transactions L = Some ts -> 0 < amt ->
  let data := mkTxn (match editId with Some e => e | None => genId end) type amt date None in
  let ts' := (assign_running 0 (sort_by_date (updatedTransactions editId data ts))).1 in
  handleConfirm L editId genId type amt date = Some (with_balance_txns L (signed_sum ts') ts').
Proof.
  intros Hts Hamt data ts'. unfold handleConfirm. rewrite Hts.
  destruct (Z.leb amt 0) eqn:Hle; [apply Z.leb_le in Hle; lia|].
  fold data.
  pose proof (assign_running_final 0 (sort_by_date (updatedTransactions editId data ts))) as F.
  pose proof (assign_running_sum 0 (sort_by_date (updatedTransactions editId data ts))) as S.
  unfold ts'.
  destruct (assign_running 0 (sort_by_date (updatedTransactions editId data ts))) as [l fin].
  simpl in *. do 2 f_equal. lia.
Qed.

(** C4: the add / edit path (handleConfirm) sorts the updated transaction
    list ascending by date, walks it adding credits and subtracting debits,
    stores the running total as each [balanceAfter] and the final total as
    the ledger's [balance]; on [credit 100, debit 30] this gives balance 70
    and the [balanceAfter] sequence [100, 70]. *)
Theorem handleConfirm_recomputes_balances :
  (forall (L : ledger) (ts : list txn) (editId : option string) (genId type : string)
          (amt date : Z),
     l_transactions L = Some ts -> 0 < amt ->
     exists ts' : list txn,
       handleConfirm L editId genId type amt date
         = Some (with_balance_txns L (signed_sum ts') ts') /\
       Sorted date_le ts' /\
       Permutation (map strip ts')
         (map strip (updatedTransactions editId
            (mkTxn (match editId with Some e => e | None => genId end) type amt date None) ts)) /\
       running_ok ts') /\
  handleConfirm (mkLedger "L" "Asha" "" "" 100 (Some [mkTxn "t1" "credit" 100 1 (Some 100)]))
                None "t2" "debit" 30 2
  = Some (mkLedger "L" "Asha" "" "" 70
            (Some [mkTxn "t1" "credit" 100 1 (Some 100); mkTxn "t2" "debit" 30 2 (Some 70)])).
Proof.
  split; [|reflexivity].
  intros L ts editId genId type amt date Hts Hamt.
  eexists. split; [apply (handleConfirm_some L ts editId genId type amt date Hts Hamt)|].
  split; [apply assign_running_dates_sorted, sort_by_date_sorted|].
  split; [|apply assign_running_ok].
  rewrite assign_running_strip. apply Permutation_map, sort_by_date_perm.
Qed.

Lemma handleConfirm_recomputes_balances_witness :
  l_transactions (mkLedger "L" "Asha" "" "" 0 (Some [])) = Some [] /\ 0 < 100 /\
  exists ts' : list txn,
    handleConfirm (mkLedger "L" "Asha" "" "" 0 (Some [])) None "t1" "credit" 100 5
    = Some (with_balance_txns (mkLedger "L" "Asha" "" "" 0 (Some [])) (signed_sum ts') ts') /\
    running_ok ts'.
Proof.
  split; [reflexivity|]. split; [lia|].
  destruct (proj1 handleConfirm_recomputes_balances (mkLedger "L" "Asha" "" "" 0 (Some [])) []
              None "t1" "credit" 100 5 eq_refl ltac:(lia)) as [ts' [H [_ [_ R]]]].
  exists ts'. split; [exact H | exact R].
Defined.

(** ** deleteTransaction *)

Lemma delete_recompute_acc (l : list txn) (acc : Z) :
  fold_left (fun newBalance t => if is_credit t then newBalance - t_amount t
                                 else newBalance + t_amount t) l acc = acc - signed_sum l.
Proof.
  revert acc; induction l as [|t l IH]; intros acc; simpl; [lia|].
  rewrite IH. unfold signed. destruct (is_credit t); lia.
Qed.

Lemma delete_recompute_neg (l : list txn) : delete_recompute l = - signed_sum l.
Proof. unfold delete_recompute. rewrite delete_recompute_acc. lia. Qed.

Lemma filter_id_spec (ts : list txn) (tid : string) (t : txn) :
  In t (List.filter (fun t => negb (String.eqb (t_id t) tid)) ts) <-> In t ts /\ t_id t <> tid.
Proof.
  rewrite filter_In. rewrite negb_true_iff, String.eqb_neq. tauto.
Qed.

(** C5: deleteTransaction removes the transactions with the given id,
    sets [balance] to the re-sum of the rest with credit subtracting and
    debit adding (the negated credit-positive sum), writes the whole
    collection back, and, with a signed-in user and auto-backup on, starts a
    full syncAllToFirebase; it writes no single remote document itself. *)
Theorem deleteTransaction_spec (e : env) (s : state) (lid tid : string) (L : ledger)
    (ts : list txn) :
  getAllLedgers_pure e s !! lid = Some L ->
  l_transactions L = Some ts ->
  local_write_fails e (getLedgersKey e) = false ->
  let rest := List.filter (fun t => negb (String.eqb (t_id t) tid)) ts in
  (forall t, In t rest <-> In t ts /\ t_id t <> tid) /\
  delete_recompute rest = - signed_sum rest /\
  deleteTransaction lid tid e s =
    (Some true,
     mkState (<[getLedgersKey e := LColl (<[lid := with_balance_txns L (delete_recompute rest) rest]>
                                            (getAllLedgers_pure e s))]> (ledgers_kv s))
             (settings_kv s) (expenses_kv s) (categories_kv s) (remote s)
             (background s ++
                if (match currentUser e with Some _ => true | None => false end)
                   && autoBackup (getBackupSettings_pure e s)
                then [TSyncAll] else [])).
Proof.
  intros HL Hts Hw rest.
  split; [intros t; apply filter_id_spec|].
  split; [apply delete_recompute_neg|].
  unfold deleteTransaction, catch_, bind, ask, getAllLedgers. rewrite HL, Hts.
  unfold setLedgersItem. rewrite Hw.
  unfold getBackupSettings, getBackupSettings_pure, set_ledgers_kv. simpl. fold rest.
  destruct (match currentUser e with Some _ => true | None => false end
            && autoBackup _); simpl.
  - reflexivity.
  - rewrite app_nil_r. reflexivity.
Qed.

Lemma deleteTransaction_spec_witness :
  (deleteTransaction "L" "t1" env_guest st_two).1 = Some true.
Proof.
  destruct (deleteTransaction_spec env_guest st_two "L" "t1" ledger_two
              [mkTxn "t1" "credit" 100 1 (Some 100); mkTxn "t2" "debit" 30 2 (Some 70)]
              ltac:(vm_compute; reflexivity) eq_refl eq_refl) as [_ [_ E]].
  rewrite E. reflexivity.
Defined.

(** C10: when the stored collection has no ledger under [ledgerId],
    deleteTransaction returns false and changes nothing. *)
Theorem deleteTransaction_missing_ledger (e : env) (s : state) (lid tid : string) :
  getAllLedgers_pure e s !! lid = None ->
  deleteTransaction lid tid e s = (Some false, s).
Proof.
  intros H. unfold deleteTransaction, catch_, bind, ask, getAllLedgers. rewrite H. reflexivity.
Qed.

Lemma deleteTransaction_missing_ledger_witness :
  getAllLedgers_pure env_guest st_new !! "X"%string = None /\
  deleteTransaction "X" "t1" env_guest st_new = (Some false, st_new).
Proof.
  split; [reflexivity|].
  apply deleteTransaction_missing_ledger. reflexivity.
Defined.

(** C1 (code defect): after add credit 100, add debit 30 and delete of the
    debit, the stored balance is -100 while the remaining transactions sum
    to 100: the delete path counts credits negative. *)
Theorem add_add_delete_balance_sign :
  getAllLedgers_pure env_guest (run_ops ops_add_add_delete env_guest st_new).2 !! "L"%string
    = Some (mkLedger "L" "Asha" "" "" (-100) (Some [mkTxn "t1" "credit" 100 1 (Some 100)])) /\
  signed_sum [mkTxn "t1" "credit" 100 1 (Some 100)] = 100.
Proof. split; vm_compute; reflexivity. Qed.

(** The add / edit path alone keeps [balanceAfter] equal to the running sums. *)
Lemma handleConfirm_running_ok (L L' : ledger) (editId : option string) (genId type : string)
    (amt date : Z) (ts' : list txn) :
  handleConfirm L editId genId type amt date = Some L' ->
  l_transactions L' = Some ts' -> running_ok ts' /\ l_balance L' = signed_sum ts'.
Proof.
  intros H Hts'. unfold handleConfirm in H.
  destruct (Z.leb amt 0); [discriminate|].
  destruct (l_transactions L) as [ts|]; [|discriminate].
  pose proof (assign_running_final 0
    (sort_by_date (updatedTransactions editId
      (mkTxn (match editId with Some e => e | None => genId end) type amt date None) ts))) as F.
  pose proof (assign_running_sum 0
    (sort_by_date (updatedTransactions editId
      (mkTxn (match editId with Some e => e | None => genId end) type amt date None) ts))) as S.
  pose proof (assign_running_ok
    (sort_by_date (updatedTransactions editId
      (mkTxn (match editId with Some e => e | None => genId end) type amt date None) ts))) as R.
  destruct (assign_running _ _) as [l fin]. simpl in *.
  injection H as <-. simpl in Hts'. injection Hts' as <-. split; [exact R|]. simpl. lia.
Qed.

(** C2 (code defect): deleting the first transaction of [credit 100 (100),
    debit 30 (70)] leaves [debit 30] with the stale [balanceAfter] 70, while
    the running sum through it is -30: deleteTransaction does not recompute
    [balanceAfter]. *)
Theorem delete_keeps_stale_balanceAfter :
  (deleteTransaction "L" "t1" env_guest st_two).1 = Some true /\
  getAllLedgers_pure env_guest (deleteTransaction "L" "t1" env_guest st_two).2 !! "L"%string
    = Some (mkLedger "L" "Asha" "" "" 30 (Some [mkTxn "t2" "debit" 30 2 (Some 70)])) /\
  ~ running_ok [mkTxn "t2" "debit" 30 2 (Some 70)].
Proof.
  split; [vm_compute; reflexivity|]. split; [vm_compute; reflexivity|].
  intros H. specialize (H 0%nat _ eq_refl). vm_compute in H. discriminate.
Qed.

(** ** deleteLedger and fetchFromFirebase *)

Lemma strip_prefix_app (p k rest : list string) :
  strip_prefix p k = Some rest -> k = p ++ rest.
Proof.
  revert k; induction p as [|x p IH]; intros k H; simpl in H.
  - by injection H as ->.
  - destruct k as [|y k]; [discriminate|].
    destruct (String.eqb x y) eqn:Exy; [|discriminate].
    apply String.eqb_eq in Exy as ->. simpl. f_equal. by apply IH.
Qed.

Lemma children_lookup (coll : list string) (r : gmap (list string) doc) (id : string) (d : doc) :
  (id, d) ∈ children coll r -> r !! (coll ++ [id]) = Some d.
Proof.
  unfold children. rewrite list_elem_of_omap. intros [[k d'] [Hin Hf]].
  apply elem_of_map_to_list in Hin. simpl in Hf.
  destruct (strip_prefix coll k) as [[|id' [|]]|] eqn:Hs; try discriminate.
  injection Hf as -> ->. apply strip_prefix_app in Hs. by subst k.
Qed.

Lemma fetch_fold_spec (uid : string) (docs : list (string * doc)) (acc : gmap string ledger)
    (e : env) (s s' : state) (res : option (gmap string ledger)) :
  foldM (fetch_ledger uid) docs acc e s = (res, s') ->
  s' = s /\
  forall r k, res = Some r -> is_Some (r !! k) -> is_Some (acc !! k) \/ exists d, (k, d) ∈ docs.
Proof.
  revert acc res; induction docs as [|[k0 d0] docs IH]; intros acc res H; simpl in H.
  - injection H as <- <-. split; [done|]. intros r k Hr Hk. injection Hr as <-. by left.
  - unfold bind at 1, fetch_ledger, bind, getDocs in H. simpl in H.
    destruct (remote_read_fails e _).
    + injection H as <- <-. split; [done|]. discriminate.
    + unfold ret in H. apply IH in H as [-> Hk]. split; [done|].
      intros r k Hr Hsome. destruct (Hk r k Hr Hsome) as [Hacc|[d Hd]].
      * destruct (decide (k = k0)) as [->|Hne].
        -- right. exists d0. left.
        -- left. by rewrite lookup_insert_ne in Hacc by congruence.
      * right. exists d. by right.
Qed.

Lemma fetch_spec (e : env) (s s2 : state) (res : option (gmap string ledger)) :
  fetchFromFirebase e s = (res, s2) ->
  (forall r k, res = Some r -> is_Some (r !! k) ->
     exists uid d, currentUser e = Some uid /\ remote s !! ledgerPath uid k = Some d) /\
  (getAllLedgers_pure e s2 = getAllLedgers_pure e s \/
   exists r, res = Some r /\ getAllLedgers_pure e s2 = r).
Proof.
  unfold fetchFromFirebase, bind, ask. destruct (currentUser e) as [uid|] eqn:Hu.
  - unfold getDocs. destruct (remote_read_fails e _).
    + intros H; injection H as <- <-. split; [discriminate|]. by left.
    + destruct (foldM (fetch_ledger uid) _ ∅ e s) as [[r|] s1] eqn:Hf;
        apply fetch_fold_spec in Hf as [-> Hk].
      * unfold setLedgersItem. destruct (local_write_fails e _); intros H; injection H as <- <-.
        -- split; [discriminate|]. by left.
        -- split.
           ++ intros r' k Hr' Hsome. injection Hr' as <-.
              destruct (Hk r k eq_refl Hsome) as [Hacc|[d Hd]].
              ** rewrite lookup_empty in Hacc. by destruct Hacc.
              ** exists uid, d. split; [done|]. by apply children_lookup in Hd.
           ++ right. exists r. split; [done|].
              unfold getAllLedgers_pure, set_ledgers_kv. simpl. by rewrite lookup_insert_eq.
      * intros H; injection H as <- <-. split; [discriminate|]. by left.
  - intros H; injection H as <- <-. split.
    + intros r k Hr Hsome. injection Hr as <-. rewrite lookup_empty in Hsome. by destruct Hsome.
    + by left.
Qed.

Lemma deleteLedger_success (e : env) (s s1 : state) (lid : string) :
  deleteLedger lid e s = (Some true, s1) ->
  getAllLedgers_pure e s1 = delete lid (getAllLedgers_pure e s) /\
  (forall uid, currentUser e = Some uid -> autoBackup (getBackupSettings_pure e s) = true ->
     remote s1 !! ledgerPath uid lid = None).
Proof.
  unfold deleteLedger, catch_, bind, ask, getAllLedgers, setLedgersItem.
  destruct (local_write_fails e (getLedgersKey e)); [discriminate|].
  unfold getBackupSettings. simpl.
  destruct (currentUser e) as [uid|] eqn:Hu.
  - destruct (autoBackup (getBackupSettings_pure e _)) eqn:Ha.
    + unfold deleteDoc. destruct (remote_write_fails e _); [discriminate|].
      intros H. injection H as <-. split.
      * unfold getAllLedgers_pure, set_remote, set_ledgers_kv. simpl. by rewrite lookup_insert_eq.
      * intros uid' Hu' _. injection Hu' as <-. simpl. by rewrite lookup_delete_eq.
    + intros H. injection H as <-. split.
      * unfold getAllLedgers_pure, set_ledgers_kv. simpl. by rewrite lookup_insert_eq.
      * intros uid' _ Ha'. exfalso. unfold getBackupSettings_pure, set_ledgers_kv in Ha.
        simpl in Ha. congruence.
  - intros H. injection H as <-. split.
    + unfold getAllLedgers_pure, set_ledgers_kv. simpl. by rewrite lookup_insert_eq.
    + discriminate.
Qed.

(** After a successful deleteLedger(id) the
    collection has no ledger [id]; a following fetchFromFirebase does not
    bring it back when no user is signed in or auto-backup was on at the
    deletion (then the remote ledger document was deleted). *)
Theorem deleteLedger_not_resurrected (e : env) (s s1 : state) (lid : string) :
  deleteLedger lid e s = (Some true, s1) ->
  getAllLedgers_pure e s1 !! lid = None /\
  ((currentUser e = None \/ autoBackup (getBackupSettings_pure e s) = true) ->
   forall res s2, fetchFromFirebase e s1 = (res, s2) ->
     getAllLedgers_pure e s2 !! lid = None /\ (forall r, res = Some r -> r !! lid = None)).
Proof.
  intros Hd. destruct (deleteLedger_success e s s1 lid Hd) as [Hall Hrem].
  assert (H1 : getAllLedgers_pure e s1 !! lid = None) by (rewrite Hall; apply lookup_delete_eq).
  split; [exact H1|]. intros Hcase res s2 Hf.
  destruct (fetch_spec e s1 s2 res Hf) as [Hkeys Hst].
  assert (Hr : forall r, res = Some r -> r !! lid = None).
  { intros r Hres. apply eq_None_not_Some. intros Hsome.
    destruct (Hkeys r lid Hres Hsome) as [uid [d [Hu Hd']]].
    destruct Hcase as [Hn|Ha]; [congruence|]. rewrite (Hrem uid Hu Ha) in Hd'. discriminate. }
  split; [|exact Hr].
  destruct Hst as [-> | [r [Hres ->]]]; [exact H1|]. by apply Hr.
Qed.

(** C9 fails as stated: with a signed-in user and auto-backup off,
    deleteLedger succeeds, the remote document stays, and fetchFromFirebase
    writes ledger "L" back into the local collection. *)
Lemma deleteLedger_fetch_resurrects :
  (deleteLedger "L" env_user (st_synced false)).1 = Some true /\
  getAllLedgers_pure env_user (deleteLedger "L" env_user (st_synced false)).2 !! "L"%string = None /\
  getAllLedgers_pure env_user
    (fetchFromFirebase env_user (deleteLedger "L" env_user (st_synced false)).2).2 !! "L"%string
  = Some (mkLedger "L" "Asha" "" "" 0 (Some [])).
Proof. vm_compute. repeat split. Qed.

(** ** syncAllToFirebase *)

(** [s'] differs from [s] at most in the remote store, where no document
    of [s] has disappeared. *)
Definition remote_grows (s s' : state) : Prop :=
  s' = set_remote s (remote s') /\ forall p, is_Some (remote s !! p) -> is_Some (remote s' !! p).

Definition grows_m {A} (m : M A) : Prop := forall e s, remote_grows s (m e s).2.

Lemma remote_grows_refl (s : state) : remote_grows s s.
Proof. split; [by destruct s|done]. Qed.

Lemma remote_grows_trans (s1 s2 s3 : state) :
  remote_grows s1 s2 -> remote_grows s2 s3 -> remote_grows s1 s3.
Proof.
  intros [E12 H12] [E23 H23]. split; [|auto].
  rewrite E23, E12. reflexivity.
Qed.

Lemma ret_grows {A} (x : A) : grows_m (ret x).
Proof. intros e s. apply remote_grows_refl. Qed.

Lemma ask_grows : grows_m ask.
Proof. intros e s. apply remote_grows_refl. Qed.

Lemma bind_grows {A B} (m : M A) (f : A -> M B) :
  grows_m m -> (forall x, grows_m (f x)) -> grows_m (bind m f).
Proof.
  intros Hm Hf e s. unfold bind. pose proof (Hm e s) as H.
  destruct (m e s) as [[x|] s']; simpl in *; [|exact H].
  eapply remote_grows_trans; [exact H|apply Hf].
Qed.

Lemma catch_grows {A} (m : M A) (h : A) : grows_m m -> grows_m (catch_ m h).
Proof.
  intros Hm e s. unfold catch_. pose proof (Hm e s) as H.
  by destruct (m e s) as [[x|] s'].
Qed.

Lemma setDoc_grows (p : list string) (d : doc) : grows_m (setDoc p d).
Proof.
  intros e s. unfold setDoc. destruct (remote_write_fails e p); [apply remote_grows_refl|].
  split; [reflexivity|]. intros q Hq. simpl.
  destruct (decide (q = p)) as [->|Hne].
  - by rewrite lookup_insert_eq.
  - by rewrite lookup_insert_ne by congruence.
Qed.

Lemma forM_grows {A} (l : list A) (f : A -> M unit) :
  (forall x, grows_m (f x)) -> grows_m (forM_ l f).
Proof.
  intros Hf. induction l as [|x l IH]; simpl; [apply ret_grows|].
  apply bind_grows; [apply Hf|]. intros _. exact IH.
Qed.


Lemma syncLedgerToFirebase_grows (L : ledger) : grows_m (syncLedgerToFirebase L).
Proof.
  unfold syncLedgerToFirebase. apply catch_grows, bind_grows; [apply ask_grows|].
  intros e. destruct (currentUser e) as [uid|]; [|apply ret_grows].
  apply bind_grows; [apply setDoc_grows|]. intros _.
  destruct (l_transactions L); [|apply ret_grows].
  apply forM_grows. intros t. unfold setTxnDoc. destruct (t_balanceAfter t).
  - apply setDoc_grows.
  - intros e' s'. apply remote_grows_refl.
Qed.

Lemma syncLedgerToFirebase_total (L : ledger) (e : env) (s : state) :
  (syncLedgerToFirebase L e s).1 = Some tt.
Proof.
  unfold syncLedgerToFirebase, catch_. by destruct (bind _ _ e s) as [[[]|] s'].
Qed.

Lemma forM_total {A} (l : list A) (f : A -> M unit) :
  (forall x e s, (f x e s).1 = Some tt) -> forall e s, (forM_ l f e s).1 = Some tt.
Proof.
  intros Hf. induction l as [|x l IH]; intros e s; simpl; [reflexivity|].
  unfold bind. specialize (Hf x e s). destruct (f x e s) as [[[]|] s']; simpl in *.
  - apply IH.
  - discriminate.
Qed.

Lemma forM_setDoc_result {A} (l : list A) (path : A -> list string) (d : A -> doc)
    (e : env) (s : state) :
  (forM_ l (fun x => setDoc (path x) (d x)) e s).1
  = if forallb (fun x => negb (remote_write_fails e (path x))) l then Some tt else None.
Proof.
  revert s; induction l as [|x l IH]; intros s; simpl; [reflexivity|].
  unfold bind at 1, setDoc at 1. destruct (remote_write_fails e (path x)); simpl; [reflexivity|].
  apply IH.
Qed.

Lemma grows_settings (s s' : state) : remote_grows s s' -> settings_kv s' = settings_kv s.
Proof. intros [E _]. by rewrite E. Qed.

Lemma grows_expenses (s s' : state) : remote_grows s s' -> expenses_kv s' = expenses_kv s.
Proof. intros [E _]. by rewrite E. Qed.

Lemma grows_categories (s s' : state) : remote_grows s s' -> categories_kv s' = categories_kv s.
Proof. intros [E _]. by rewrite E. Qed.

Lemma updateLastSync_total (ts : string) (e : env) (s : state) :
  exists b, (updateLastSync ts e s).1 = Some b.
Proof.
  unfold updateLastSync, catch_. destruct (bind _ _ e s) as [[b|] s']; eauto.
Qed.

Lemma updateLastSync_remote (ts : string) (e : env) (s : state) :
  remote (updateLastSync ts e s).2 = remote s.
Proof.
  unfold updateLastSync, catch_, bind, ask, getBackupSettings, setSettingsItem, ret. simpl.
  by destruct (local_write_fails e (getSettingsKey e)).
Qed.

Lemma updateLastSync_written (ts : string) (e : env) (s : state) :
  local_write_fails e (getSettingsKey e) = false ->
  lastSync (getBackupSettings_pure e (updateLastSync ts e s).2) = Some ts.
Proof.
  intros Hw. unfold updateLastSync, catch_, bind, ask, getBackupSettings, setSettingsItem, ret.
  simpl. rewrite Hw. simpl. unfold getBackupSettings_pure. simpl.
  by rewrite lookup_insert_eq.
Qed.

(** syncAllToFirebase as the code has it: without a signed-in user it
    returns false and changes nothing; otherwise it returns true exactly when
    every expense write and the categories write succeed, whatever happens to
    the ledger and transaction writes (syncLedgerToFirebase catches those);
    on false [lastSync] is unchanged, on true it is the current time unless
    saving the settings fails; remote documents are never removed (no
    rollback). *)
Theorem syncAllToFirebase_outcome (e : env) (s : state) :
  (currentUser e = None -> syncAllToFirebase e s = (Some false, s)) /\
  (forall uid, currentUser e = Some uid ->
     let ok := forallb (fun x => negb (remote_write_fails e (expensePath uid (e_id x))))
                       (getExpenses_pure e s)
               && negb (remote_write_fails e (categoriesPath uid)) in
     (syncAllToFirebase e s).1 = Some ok /\
     (ok = false ->
        getBackupSettings_pure e (syncAllToFirebase e s).2 = getBackupSettings_pure e s) /\
     (ok = true -> local_write_fails e (getSettingsKey e) = false ->
        lastSync (getBackupSettings_pure e (syncAllToFirebase e s).2) = Some (now e)) /\
     (forall p, is_Some (remote s !! p) -> is_Some (remote (syncAllToFirebase e s).2 !! p))).
Proof.
  split.
  { intros Hu. unfold syncAllToFirebase, catch_, bind, ask. rewrite Hu. reflexivity. }
  intros uid Hu ok.
  unfold syncAllToFirebase, catch_, bind, ask, getAllLedgers, getExpenses, getCategories, ret.
  rewrite Hu.
  pose proof (forM_total (map snd (map_to_list (getAllLedgers_pure e s))) _
                syncLedgerToFirebase_total e s) as T1.
  pose proof (forM_grows (map snd (map_to_list (getAllLedgers_pure e s))) _
                syncLedgerToFirebase_grows e s) as G1.
  destruct (forM_ (map snd (map_to_list (getAllLedgers_pure e s))) syncLedgerToFirebase e s)
    as [r1 s1] eqn:E1.
  simpl in T1, G1. subst r1.
  assert (Hx : getExpenses_pure e s1 = getExpenses_pure e s).
  { unfold getExpenses_pure. by rewrite (grows_expenses _ _ G1). }
  rewrite Hx. clear E1.
  pose proof (forM_setDoc_result (getExpenses_pure e s) (fun x => expensePath uid (e_id x))
                (fun x => DExpense x (now e)) e s1) as R2.
  pose proof (forM_grows (getExpenses_pure e s)
                (fun x => setDoc (expensePath uid (e_id x)) (DExpense x (now e)))
                (fun x => setDoc_grows _ _) e s1) as G2.
  destruct (forM_ (getExpenses_pure e s) _ e s1) as [r2 s2] eqn:E2. simpl in R2, G2.
  pose proof (remote_grows_trans _ _ _ G1 G2) as G12.
  unfold ok. clear ok E2.
  destruct (forallb _ (getExpenses_pure e s)); subst r2; simpl.
  - unfold setDoc. destruct (remote_write_fails e (categoriesPath uid)) eqn:Ec; simpl.
    + split; [reflexivity|]. split.
      { intros _. unfold getBackupSettings_pure. by rewrite (grows_settings _ _ G12). }
      split; [discriminate|]. apply G12.
    + destruct (updateLastSync_total (now e) e
                  (set_remote s2 (<[categoriesPath uid := DCategories
                     match categories_kv s2 !! getCategoriesKey e with
                     | Some l => l | None => default_categories end (now e)]> (remote s2))))
        as [b Hb].
      pose proof (updateLastSync_remote (now e) e
                  (set_remote s2 (<[categoriesPath uid := DCategories
                     match categories_kv s2 !! getCategoriesKey e with
                     | Some l => l | None => default_categories end (now e)]> (remote s2)))) as Hr.
      pose proof (updateLastSync_written (now e) e
                  (set_remote s2 (<[categoriesPath uid := DCategories
                     match categories_kv s2 !! getCategoriesKey e with
                     | Some l => l | None => default_categories end (now e)]> (remote s2)))) as Hl.
      destruct (updateLastSync _ e _) as [o4 s4]. simpl in Hb, Hr, Hl. subst o4. simpl.
      split; [reflexivity|]. split; [discriminate|]. split.
      * intros _ Hw. by apply Hl.
      * intros p Hp. rewrite Hr. simpl. destruct G12 as [_ Hg].
        destruct (decide (p = categoriesPath uid)) as [->|Hne].
        -- by rewrite lookup_insert_eq.
        -- rewrite lookup_insert_ne by congruence. by apply Hg.
  - split; [reflexivity|]. split.
    { intros _. unfold getBackupSettings_pure. by rewrite (grows_settings _ _ G12). }
    split; [discriminate|]. apply G12.
Qed.

Lemma syncAllToFirebase_outcome_witness :
  (syncAllToFirebase env_user (st_synced true)).1 = Some true /\
  lastSync (getBackupSettings_pure env_user (syncAllToFirebase env_user (st_synced true)).2)
  = Some (now env_user).
Proof.
  destruct (proj2 (syncAllToFirebase_outcome env_user (st_synced true)) "u" eq_refl)
    as [H1 [_ [H3 _]]].
  split.
  - rewrite H1. reflexivity.
  - apply H3; reflexivity.
Defined.

(** C8 (code bug): a failing ledger write is swallowed. The write of
    ledger document "L" fails inside the ledger loop (syncLedgerToFirebase
    catches it), yet syncAllToFirebase returns true, sets [lastSync] to
    the current time, and the Firestore document keeps its old content. *)
Lemma syncAll_ledger_write_failure_swallowed :
  remote_write_fails env_ledger_write_fails (ledgerPath "u" "L") = true /\
  (syncAllToFirebase env_ledger_write_fails (st_synced true)).1 = Some true /\
  lastSync (getBackupSettings_pure env_ledger_write_fails
              (syncAllToFirebase env_ledger_write_fails (st_synced true)).2)
  = Some "2026-01-01T00:00:00Z"%string /\
  remote (syncAllToFirebase env_ledger_write_fails (st_synced true)).2 !! ledgerPath "u" "L"
  = remote (st_synced true) !! ledgerPath "u" "L".
Proof. vm_compute. repeat split. Qed.

End StoreProofs.

(* ------------------------------------------------------------------ *)
(** * More properties of the ledger store *)

Module StoreExtraProofs.
Import Store StoreMore Samples SamplesMore StoreProofs.

(** ** saveLedger *)

(** saveLedger upserts the ledger under its id in the collection read by
    getAllLedgers, writes nothing to Firestore itself, and queues a
    background syncLedgerToFirebase exactly when auto-backup is on. *)
Theorem saveLedger_spec (e : env) (s : state) (L : ledger) :
  local_write_fails e (getLedgersKey e) = false ->
  saveLedger L e s =
    (Some true,
     mkState (<[getLedgersKey e := LColl (<[l_id L := L]> (getAllLedgers_pure e s))]> (ledgers_kv s))
             (settings_kv s) (expenses_kv s) (categories_kv s) (remote s)
             (background s ++ if autoBackup (getBackupSettings_pure e s) then [TSyncLedger L] else [])).
Proof.
  intros Hw. unfold saveLedger, catch_, bind, ask, getAllLedgers, setLedgersItem. rewrite Hw.
  unfold getBackupSettings, getBackupSettings_pure, set_ledgers_kv. simpl.
  destruct (autoBackup _); simpl.
  - reflexivity.
  - rewrite app_nil_r. reflexivity.
Qed.

Lemma saveLedger_spec_witness :
  (saveLedger ledger_two env_guest st_new).1 = Some true.
Proof. rewrite (saveLedger_spec env_guest st_new ledger_two eq_refl). reflexivity. Defined.

(** When the stored ledgers text does not parse, getAllLedgers gives [{}]
    and saveLedger overwrites the key with a collection holding only the
    saved ledger: every other stored ledger is dropped. *)
Theorem saveLedger_corrupt_drops_others (e : env) (s : state) (L : ledger) :
  ledgers_kv s !! getLedgersKey e = Some LCorrupt ->
  local_write_fails e (getLedgersKey e) = false ->
  (saveLedger L e s).1 = Some true /\
  getAllLedgers_pure e (saveLedger L e s).2 = {[l_id L := L]}.
Proof.
  intros Hc Hw.
  assert (H0 : getAllLedgers_pure e s = ∅) by (unfold getAllLedgers_pure; by rewrite Hc).
  rewrite (saveLedger_spec e s L Hw), H0. split; [reflexivity|].
  unfold getAllLedgers_pure. simpl. rewrite lookup_insert_eq. reflexivity.
Qed.

Lemma saveLedger_corrupt_drops_others_witness :
  getAllLedgers_pure env_guest
    (saveLedger ledger_new env_guest
       (mkState (<["ledgers_guest" := LCorrupt]> ∅) ∅ ∅ ∅ ∅ [])).2
  = {["L" := ledger_new]}.
Proof.
  exact (proj2 (saveLedger_corrupt_drops_others env_guest
                  (mkState (<["ledgers_guest" := LCorrupt]> ∅) ∅ ∅ ∅ ∅ []) ledger_new
                  eq_refl eq_refl)).
Defined.

(** When writing the ledgers key fails, saveLedger returns false and
    leaves the state as it was (no background sync is started). *)
Theorem saveLedger_write_failure (e : env) (s : state) (L : ledger) :
  local_write_fails e (getLedgersKey e) = true ->
  saveLedger L e s = (Some false, s).
Proof.
  intros Hw. unfold saveLedger, catch_, bind, ask, getAllLedgers, setLedgersItem. by rewrite Hw.
Qed.

Lemma saveLedger_write_failure_witness :
  saveLedger ledger_new
    (mkEnv None "2026-01-01T00:00:00Z" (fun _ => true) (fun _ => false) (fun _ => false)) st_new
  = (Some false, st_new).
Proof. apply saveLedger_write_failure. reflexivity. Defined.

(** ** handleAddLedger *)

(** handleAddLedger: a name that is empty after trimming changes nothing;
    otherwise the collection gains a ledger with the trimmed name, balance
    0 and no transactions, whose (empty) history trivially satisfies the
    running-balance invariant. *)
Theorem handleAddLedger_spec (e : env) (s : state) (name gid : string) :
  (String.eqb (trim name) "" = true -> handleAddLedger name gid e s = (Some tt, s)) /\
  (String.eqb (trim name) "" = false -> local_write_fails e (getLedgersKey e) = false ->
     getAllLedgers_pure e (handleAddLedger name gid e s).2
       = <[gid := mkLedger gid (trim name) "" "" 0 (Some [])]> (getAllLedgers_pure e s) /\
     running_ok [] /\ l_balance (mkLedger gid (trim name) "" "" 0 (Some [])) = signed_sum []).
Proof.
  split.
  - intros Hb. unfold handleAddLedger. by rewrite Hb.
  - intros Hb Hw. unfold handleAddLedger. rewrite Hb. unfold bind.
    rewrite (saveLedger_spec e s _ Hw). simpl. split; [|split].
    + unfold getAllLedgers_pure. simpl. by rewrite lookup_insert_eq.
    + intros i t Hi. by rewrite lookup_nil in Hi.
    + reflexivity.
Qed.

Lemma handleAddLedger_spec_witness :
  handleAddLedger "   " "id1" env_guest st_new = (Some tt, st_new) /\
  handleAddLedger nbsp_name "id1" env_guest st_new = (Some tt, st_new) /\
  getAllLedgers_pure env_guest (handleAddLedger "  Ravi " "id1" env_guest st_new).2
    !! "id1"%string = Some (mkLedger "id1" "Ravi" "" "" 0 (Some [])).
Proof.
  split; [|split].
  - apply (proj1 (handleAddLedger_spec env_guest st_new "   " "id1")). reflexivity.
  - apply (proj1 (handleAddLedger_spec env_guest st_new nbsp_name "id1")). vm_compute. reflexivity.
  - rewrite (proj1 (proj2 (handleAddLedger_spec env_guest st_new "  Ravi " "id1") eq_refl eq_refl)).
    vm_compute. reflexivity.
Defined.

(** ** fetchFromFirebase *)

(** fetchFromFirebase writes nothing unless it succeeds: when it throws,
    the state is the one it started from. Without a user it returns [{}]
    and changes nothing. *)
Theorem fetchFromFirebase_no_partial_write (e : env) (s s' : state) :
  (fetchFromFirebase e s = (None, s') -> s' = s) /\
  (currentUser e = None -> fetchFromFirebase e s = (Some ∅, s)).
Proof.
  split.
  - unfold fetchFromFirebase, bind, ask. destruct (currentUser e) as [uid|]; [|discriminate].
    unfold getDocs. destruct (remote_read_fails e _); [by intros [= ->]|].
    destruct (foldM (fetch_ledger uid) _ ∅ e s) as [[r|] s1] eqn:Hf;
      apply fetch_fold_spec in Hf as [-> _].
    + unfold setLedgersItem. destruct (local_write_fails e _); [by intros [= <-]|discriminate].
    + by intros [= <-].
  - intros Hu. unfold fetchFromFirebase, bind, ask. by rewrite Hu.
Qed.

Lemma fetchFromFirebase_no_partial_write_witness :
  fetchFromFirebase env_guest st_new = (Some ∅, st_new).
Proof. apply (proj2 (fetchFromFirebase_no_partial_write env_guest st_new st_new)). reflexivity. Defined.

(** What fetchFromFirebase builds: each ledger sits under its own id and
    has a transactions array sorted ascending by date. *)
Definition fetched_ok (r : gmap string ledger) : Prop :=
  forall k L, r !! k = Some L ->
    l_id L = k /\ exists ts, l_transactions L = Some ts /\ Sorted date_le ts.

Lemma fetch_fold_ok (uid : string) (docs : list (string * doc)) (acc : gmap string ledger)
    (e : env) (s s' : state) (r : gmap string ledger) :
  foldM (fetch_ledger uid) docs acc e s = (Some r, s') -> fetched_ok acc -> fetched_ok r.
Proof.
  revert acc; induction docs as [|[k0 d0] docs IH]; intros acc H Hacc; simpl in H.
  - by injection H as <- _.
  - unfold bind at 1, fetch_ledger, bind, getDocs in H. simpl in H.
    destruct (remote_read_fails e _); [discriminate|].
    unfold ret in H. apply IH in H; [exact H|].
    intros k L Hk. destruct (decide (k = k0)) as [->|Hne].
    + rewrite lookup_insert_eq in Hk. injection Hk as <-.
      destruct d0; simpl; (split; [reflexivity|]); eexists; (split; [reflexivity|]);
        apply sort_by_date_sorted.
    + rewrite lookup_insert_ne in Hk by congruence. by apply Hacc.
Qed.

(** A successful fetchFromFirebase returns ledgers keyed by their ids with
    date-sorted transactions, and (for a signed-in user) leaves exactly
    that collection in local storage. *)
Theorem fetchFromFirebase_sorted (e : env) (s s' : state) (r : gmap string ledger) :
  fetchFromFirebase e s = (Some r, s') ->
  fetched_ok r /\ (currentUser e <> None -> getAllLedgers_pure e s' = r).
Proof.
  unfold fetchFromFirebase, bind, ask. destruct (currentUser e) as [uid|] eqn:Hu.
  - unfold getDocs. destruct (remote_read_fails e _); [discriminate|].
    destruct (foldM (fetch_ledger uid) _ ∅ e s) as [[r1|] s1] eqn:Hf; [|discriminate].
    pose proof (fetch_fold_ok _ _ _ _ _ _ _ Hf) as Hok.
    apply fetch_fold_spec in Hf as [-> _].
    unfold setLedgersItem. destruct (local_write_fails e _); [discriminate|].
    intros [= <- <-]. split.
    + apply Hok. intros k L Hk. by rewrite lookup_empty in Hk.
    + intros _. unfold getAllLedgers_pure. simpl. by rewrite lookup_insert_eq.
  - intros [= <- <-]. split; [|congruence].
    intros k L Hk. by rewrite lookup_empty in Hk.
Qed.

Lemma fetchFromFirebase_sorted_witness :
  fetched_ok (match (fetchFromFirebase env_user (st_synced true)).1 with Some r => r | None => ∅ end).
Proof.
  exact (proj1 (fetchFromFirebase_sorted env_user (st_synced true)
                  (fetchFromFirebase env_user (st_synced true)).2 _ eq_refl)).
Defined.

(** ** deleteLedger *)

(** A successful deleteLedger removes at most the ledger document
    users/uid/ledgers/id from Firestore: the transactions subcollection
    under it (and every other document) stays; the other local ledgers are
    untouched. *)
Theorem deleteLedger_frame (e : env) (s s1 : state) (lid : string) :
  deleteLedger lid e s = (Some true, s1) ->
  (forall p, (forall uid, p <> ledgerPath uid lid) -> remote s1 !! p = remote s !! p) /\
  (forall uid tid, remote s1 !! txnPath uid lid tid = remote s !! txnPath uid lid tid) /\
  (forall k, k <> lid -> getAllLedgers_pure e s1 !! k = getAllLedgers_pure e s !! k).
Proof.
  intros Hd.
  assert (Hrem : forall p, (forall uid, p <> ledgerPath uid lid) -> remote s1 !! p = remote s !! p).
  { revert Hd. unfold deleteLedger, catch_, bind, ask, getAllLedgers, setLedgersItem.
    destruct (local_write_fails e (getLedgersKey e)); [discriminate|].
    unfold getBackupSettings. simpl.
    destruct (currentUser e) as [uid|].
    - destruct (autoBackup _).
      + unfold deleteDoc. destruct (remote_write_fails e _); [discriminate|].
        intros [= <-] p Hp. simpl. by rewrite lookup_delete_ne by (symmetry; apply Hp).
      + by intros [= <-].
    - by intros [= <-]. }
  split; [exact Hrem|]. split.
  - intros uid tid. apply Hrem. intros uid'. unfold txnPath, ledgerPath. discriminate.
  - intros k Hk. destruct (deleteLedger_success e s s1 lid Hd) as [Hall _].
    rewrite Hall. by apply lookup_delete_ne.
Qed.

Lemma deleteLedger_frame_witness :
  remote (deleteLedger "L" env_user (st_synced true)).2 !! txnPath "u" "L" "t1"
  = remote (st_synced true) !! txnPath "u" "L" "t1".
Proof.
  exact (proj1 (proj2 (deleteLedger_frame env_user (st_synced true)
                         (deleteLedger "L" env_user (st_synced true)).2 "L" eq_refl)) "u" "t1").
Defined.

(** When the remote delete fails, deleteLedger returns false although the
    ledger is already gone from local storage (no rollback), and the
    Firestore document stays. *)
Theorem deleteLedger_remote_failure (e : env) (s : state) (lid uid : string) :
  currentUser e = Some uid ->
  local_write_fails e (getLedgersKey e) = false ->
  autoBackup (getBackupSettings_pure e s) = true ->
  remote_write_fails e (ledgerPath uid lid) = true ->
  (deleteLedger lid e s).1 = Some false /\
  getAllLedgers_pure e (deleteLedger lid e s).2 = delete lid (getAllLedgers_pure e s) /\
  remote (deleteLedger lid e s).2 = remote s.
Proof.
  intros Hu Hw Ha Hr.
  unfold deleteLedger, catch_, bind, ask, getAllLedgers, setLedgersItem. rewrite Hw.
  unfold getBackupSettings, getBackupSettings_pure in *. simpl. rewrite Hu, Ha.
  unfold deleteDoc. rewrite Hr. simpl. split; [reflexivity|]. split; [|reflexivity].
  unfold getAllLedgers_pure. simpl. by rewrite lookup_insert_eq.
Qed.

Lemma deleteLedger_remote_failure_witness :
  (deleteLedger "L" (mkEnv (Some "u") "2026-01-01T00:00:00Z" (fun _ => false) (fun _ => true) (fun _ => false))
     (st_synced true)).1 = Some false.
Proof.
  exact (proj1 (deleteLedger_remote_failure
                  (mkEnv (Some "u") "2026-01-01T00:00:00Z" (fun _ => false) (fun _ => true) (fun _ => false))
                  (st_synced true) "L" "u" eq_refl eq_refl eq_refl eq_refl)).
Defined.

(** ** deleteTransaction on a ledger without a transactions field *)

(** When the stored ledger has no [transactions] field, [.filter] throws;
    deleteTransaction returns false and writes nothing. *)
Theorem deleteTransaction_no_transactions (e : env) (s : state) (lid tid : string) (L : ledger) :
  getAllLedgers_pure e s !! lid = Some L -> l_transactions L = None ->
  deleteTransaction lid tid e s = (Some false, s).
Proof.
  intros HL Ht. unfold deleteTransaction, catch_, bind, ask, getAllLedgers. by rewrite HL, Ht.
Qed.

Lemma deleteTransaction_no_transactions_witness :
  deleteTransaction "L" "t1" env_guest
    (mkState (<["ledgers_guest" := LColl {["L" := mkLedger "L" "Asha" "" "" 0 None]}]> ∅) ∅ ∅ ∅ ∅ [])
  = (Some false, mkState (<["ledgers_guest" := LColl {["L" := mkLedger "L" "Asha" "" "" 0 None]}]> ∅) ∅ ∅ ∅ ∅ []).
Proof. apply (deleteTransaction_no_transactions _ _ _ _ (mkLedger "L" "Asha" "" "" 0 None)); reflexivity. Defined.

(** ** storage.js clearAllData *)

Lemma deleteDoc_eq (p : list string) (e : env) (s : state) :
  deleteDoc p e s = if remote_write_fails e p then (None, s)
                    else (Some tt, set_remote s (delete p (remote s))).
Proof. reflexivity. Qed.

Lemma promise_all_deleteDoc (uid : string) (l : list (string * doc)) (e : env) (s : state) :
  let s' := (promise_all l (fun d => deleteDoc (ledgerPath uid d.1)) e s).2 in
  s' = set_remote s (remote s') /\
  (forall p, (forall id, p <> ledgerPath uid id) -> remote s' !! p = remote s !! p) /\
  (forall p d, remote s' !! p = Some d -> remote s !! p = Some d).
Proof.
  revert s; induction l as [|x l IH]; intros s; simpl.
  - split; [by destruct s|]. split; [done|]. done.
  - rewrite deleteDoc_eq.
    destruct (remote_write_fails e (ledgerPath uid x.1)); simpl.
    + destruct (promise_all l _ e s) as [o2 s2] eqn:E. destruct (IH s) as [H1 [H2 H3]].
      rewrite E in H1, H2, H3. simpl in *. auto.
    + destruct (promise_all l _ e (set_remote s (delete (ledgerPath uid x.1) (remote s))))
        as [o2 s2] eqn:E.
      destruct (IH (set_remote s (delete (ledgerPath uid x.1) (remote s)))) as [H1 [H2 H3]].
      rewrite E in H1, H2, H3. simpl in *. split; [|split].
      * rewrite H1. reflexivity.
      * intros p Hp. rewrite H2 by exact Hp. simpl.
        by rewrite lookup_delete_ne by (symmetry; apply Hp).
      * intros p d Hd. apply H3 in Hd. simpl in Hd.
        destruct (decide (p = ledgerPath uid x.1)) as [->|Hne].
        -- by rewrite lookup_delete_eq in Hd.
        -- by rewrite lookup_delete_ne in Hd by congruence.
Qed.

Lemma promise_all_deleteDoc_ok (uid : string) (l : list (string * doc)) (e : env) (s : state) :
  (forall p, remote_write_fails e p = false) ->
  (promise_all l (fun d => deleteDoc (ledgerPath uid d.1)) e s).1 = Some tt /\
  forall id d, (id, d) ∈ l ->
    remote (promise_all l (fun d => deleteDoc (ledgerPath uid d.1)) e s).2 !! ledgerPath uid id = None.
Proof.
  intros Hok. revert s; induction l as [|x l IH]; intros s; simpl.
  - split; [reflexivity|]. intros id d Hin. by apply elem_of_nil in Hin.
  - rewrite deleteDoc_eq, Hok.
    pose proof (promise_all_deleteDoc uid l e (set_remote s (delete (ledgerPath uid x.1) (remote s))))
      as [_ [_ Hsub]].
    destruct (IH (set_remote s (delete (ledgerPath uid x.1) (remote s)))) as [Ho Hdel].
    destruct (promise_all l _ e _) as [o2 s2] eqn:E. simpl in *. subst o2.
    split; [reflexivity|]. intros id d Hin. apply elem_of_cons in Hin as [Hx|Hin].
    + subst x. apply eq_None_not_Some. intros [d' Hd']. apply Hsub in Hd'. simpl in Hd'.
      by rewrite lookup_delete_eq in Hd'.
    + by apply (Hdel id d).
Qed.

(** The state clearAllData reaches once both local removals succeeded. *)
Lemma clearAllData_shape (e : env) (s : state) :
  local_write_fails e (getLedgersKey e) = false -> local_write_fails e "ledgers_guest" = false ->
  let s2 := set_ledgers_kv (set_ledgers_kv s (delete (getLedgersKey e) (ledgers_kv s)))
                (delete "ledgers_guest" (delete (getLedgersKey e) (ledgers_kv s))) in
  clearAllData e s =
    (Some true,
     match currentUser e with
     | Some uid =>
         if remote_read_fails e ["users"; uid; "ledgers"]%string then s2
         else (promise_all (children ["users"; uid; "ledgers"]%string (remote s2))
                 (fun d => deleteDoc (ledgerPath uid d.1)) e s2).2
     | None => s2
     end).
Proof.
  intros H1 H2 s2. unfold clearAllData, catch_, bind, ask, removeLedgersItem. rewrite H1.
  simpl. rewrite H2. simpl. destruct (currentUser e) as [uid|]; [|reflexivity].
  unfold getDocs. fold s2. destruct (remote_read_fails e _); [reflexivity|].
  destruct (promise_all _ _ e s2) as [[[]|] s3]; reflexivity.
Qed.

(** storage.js clearAllData: once both local removals succeed it returns
    true whatever Firebase does, the user's and the guest's ledgers keys
    are gone (getAllLedgers gives [{}]), and no transaction document is
    deleted from Firestore (only ledger documents are). *)
Theorem clearAllData_spec (e : env) (s : state) :
  local_write_fails e (getLedgersKey e) = false -> local_write_fails e "ledgers_guest" = false ->
  (clearAllData e s).1 = Some true /\
  ledgers_kv (clearAllData e s).2 !! getLedgersKey e = None /\
  ledgers_kv (clearAllData e s).2 !! "ledgers_guest"%string = None /\
  getAllLedgers_pure e (clearAllData e s).2 = ∅ /\
  (forall uid lid tid, remote (clearAllData e s).2 !! txnPath uid lid tid = remote s !! txnPath uid lid tid).
Proof.
  intros H1 H2. rewrite (clearAllData_shape e s H1 H2).
  set (s2 := set_ledgers_kv (set_ledgers_kv s (delete (getLedgersKey e) (ledgers_kv s)))
                (delete "ledgers_guest" (delete (getLedgersKey e) (ledgers_kv s)))).
  assert (Hk : forall s', s' = set_remote s2 (remote s') ->
            ledgers_kv s' !! getLedgersKey e = None /\ ledgers_kv s' !! "ledgers_guest"%string = None /\
            getAllLedgers_pure e s' = ∅).
  { intros s' ->. unfold getAllLedgers_pure. simpl.
    destruct (decide (getLedgersKey e = "ledgers_guest"%string)) as [Heq|Hne].
    - rewrite Heq. by simplify_map_eq.
    - by simplify_map_eq. }
  split; [reflexivity|].
  destruct (currentUser e) as [uid|].
  - destruct (remote_read_fails e _).
    + destruct (Hk s2) as [A [B C]]; [by destruct s2|]. split; [done|]. split; [done|].
      split; [done|]. intros. reflexivity.
    + destruct (promise_all_deleteDoc uid (children ["users"; uid; "ledgers"]%string (remote s2)) e s2)
        as [E [Hfr _]].
      destruct (Hk _ E) as [A [B C]]. split; [done|]. split; [done|]. split; [done|].
      intros uid' lid tid. rewrite Hfr; [reflexivity|]. intros id. unfold txnPath, ledgerPath.
      discriminate.
  - destruct (Hk s2) as [A [B C]]; [by destruct s2|]. split; [done|]. split; [done|].
    split; [done|]. intros. reflexivity.
Qed.

Lemma clearAllData_spec_witness :
  (clearAllData env_user st_cloud).1 = Some true /\
  remote (clearAllData env_user st_cloud).2 !! txnPath "u" "L" "t1"
  = Some (DTxn "credit" 100 1 (Some 100)).
Proof.
  destruct (clearAllData_spec env_user st_cloud eq_refl eq_refl) as [H1 [_ [_ [_ H5]]]].
  split; [exact H1|]. rewrite H5. vm_compute. reflexivity.
Defined.

Lemma strip_prefix_self (p rest : list string) : strip_prefix p (p ++ rest) = Some rest.
Proof. induction p as [|x p IH]; simpl; [reflexivity|]. by rewrite String.eqb_refl. Qed.

Lemma children_complete (coll : list string) (r : gmap (list string) doc) (id : string) (d : doc) :
  r !! (coll ++ [id]) = Some d -> (id, d) ∈ children coll r.
Proof.
  intros H. unfold children. apply list_elem_of_omap. exists (coll ++ [id], d).
  split; [by apply elem_of_map_to_list|]. simpl. by rewrite strip_prefix_self.
Qed.

Lemma children_nil (coll : list string) (r : gmap (list string) doc) :
  (forall id d, r !! (coll ++ [id]) <> Some d) -> children coll r = [].
Proof.
  intros H. destruct (children coll r) as [|[id d] l] eqn:E; [reflexivity|].
  exfalso. apply (H id d), children_lookup. rewrite E. left.
Qed.

(** clearAllData then fetchFromFirebase: when no write or read fails, the
    fetch after clearing returns [{}] (the deleted ledger documents are not
    listed; the transaction documents left behind are not ledger
    documents). *)
Theorem clearAllData_then_fetch (e : env) (s : state) :
  (forall k, local_write_fails e k = false) ->
  (forall p, remote_write_fails e p = false) ->
  (forall p, remote_read_fails e p = false) ->
  (fetchFromFirebase e (clearAllData e s).2).1 = Some ∅.
Proof.
  intros Hl Hw Hr. rewrite (clearAllData_shape e s (Hl _) (Hl _)).
  set (s2 := set_ledgers_kv (set_ledgers_kv s (delete (getLedgersKey e) (ledgers_kv s)))
                (delete "ledgers_guest" (delete (getLedgersKey e) (ledgers_kv s)))).
  destruct (currentUser e) as [uid|] eqn:Hu.
  - rewrite Hr.
    set (coll := ["users"; uid; "ledgers"]%string).
    destruct (promise_all_deleteDoc uid (children coll (remote s2)) e s2) as [_ [_ Hsub]].
    destruct (promise_all_deleteDoc_ok uid (children coll (remote s2)) e s2 Hw) as [_ Hdel].
    set (s3 := (promise_all (children coll (remote s2)) (fun d => deleteDoc (ledgerPath uid d.1)) e s2).2)
      in *.
    assert (Hc : children coll (remote s3) = []).
    { apply children_nil. intros id d Hd.
      pose proof (Hsub _ _ Hd) as Hd2. apply children_complete, Hdel in Hd2.
      change (coll ++ [id]) with (ledgerPath uid id) in Hd. congruence. }
    unfold fetchFromFirebase, bind, ask. rewrite Hu. unfold getDocs. rewrite Hr. fold coll.
    cbn [snd]. rewrite Hc. simpl. unfold setLedgersItem. rewrite Hl. reflexivity.
  - unfold fetchFromFirebase, bind, ask. by rewrite Hu.
Qed.

Lemma clearAllData_then_fetch_witness :
  (fetchFromFirebase env_user (clearAllData env_user st_cloud).2).1 = Some ∅.
Proof. apply clearAllData_then_fetch; intros; reflexivity. Defined.

(** ** Expenses *)

Lemma saveExpense_local (e : env) (s : state) (x : expense) :
  getExpenses_pure e (saveExpense x e s).2
  = if local_write_fails e (getExpensesKey e) then getExpenses_pure e s
    else upsert_expense x (getExpenses_pure e s).
Proof.
  unfold saveExpense, catch_, bind, ask, getExpenses, setExpensesItem.
  destruct (local_write_fails e (getExpensesKey e)); [reflexivity|].
  unfold getBackupSettings. simpl.
  destruct (currentUser e) as [uid|].
  - destruct (autoBackup _).
    + unfold setDoc. destruct (remote_write_fails e _); simpl;
        unfold getExpenses_pure; simpl; by rewrite lookup_insert_eq.
    + unfold getExpenses_pure; simpl; by rewrite lookup_insert_eq.
  - unfold getExpenses_pure; simpl; by rewrite lookup_insert_eq.
Qed.

Lemma deleteExpense_local (e : env) (s : state) (id : string) :
  getExpenses_pure e (deleteExpense id e s).2
  = if local_write_fails e (getExpensesKey e) then getExpenses_pure e s
    else List.filter (fun x => negb (String.eqb (e_id x) id)) (getExpenses_pure e s).
Proof.
  unfold deleteExpense, catch_, bind, ask, getExpenses, setExpensesItem.
  destruct (local_write_fails e (getExpensesKey e)); [reflexivity|].
  unfold getBackupSettings. simpl.
  destruct (currentUser e) as [uid|].
  - destruct (autoBackup _).
    + unfold deleteDoc. destruct (remote_write_fails e _); simpl;
        unfold getExpenses_pure; simpl; by rewrite lookup_insert_eq.
    + unfold getExpenses_pure; simpl; by rewrite lookup_insert_eq.
  - unfold getExpenses_pure; simpl; by rewrite lookup_insert_eq.
Qed.

Lemma replace_expense_none (x : expense) (l : list expense) :
  (forall y, In y l -> e_id y <> e_id x) -> replace_expense x l = None.
Proof.
  induction l as [|y l IH]; intros H; simpl; [reflexivity|].
  destruct (String.eqb (e_id y) (e_id x)) eqn:E.
  - apply String.eqb_eq in E. exfalso. apply (H y); [left|]; done.
  - rewrite IH; [reflexivity|]. intros z Hz. apply H. by right.
Qed.

Lemma replace_expense_fixed (x : expense) (l l' : list expense) :
  replace_expense x l = Some l' -> replace_expense x l' = Some l'.
Proof.
  revert l'; induction l as [|y l IH]; intros l' H; simpl in H; [discriminate|].
  destruct (String.eqb (e_id y) (e_id x)) eqn:E.
  - injection H as <-. simpl. by rewrite String.eqb_refl.
  - destruct (replace_expense x l) as [l1|] eqn:E1; [|discriminate].
    simpl in H. injection H as <-. simpl. rewrite E. by rewrite (IH l1 eq_refl).
Qed.

Lemma upsert_expense_idem (x : expense) (l : list expense) :
  upsert_expense x (upsert_expense x l) = upsert_expense x l.
Proof.
  unfold upsert_expense. destruct (replace_expense x l) as [l'|] eqn:E.
  - by rewrite (replace_expense_fixed x l l' E).
  - simpl. by rewrite String.eqb_refl.
Qed.

Lemma replace_expense_index (x : expense) (l : list expense) (i : nat) (y : expense) :
  l !! i = Some y -> e_id y = e_id x ->
  (forall j z, (j < i)%nat -> l !! j = Some z -> e_id z <> e_id x) ->
  replace_expense x l = Some (<[i := x]> l).
Proof.
  revert i; induction l as [|w l IH]; intros i Hi Hid Hbefore; [done|].
  destruct i as [|i]; simpl in Hi |- *.
  - injection Hi as ->. rewrite Hid, String.eqb_refl. reflexivity.
  - destruct (String.eqb (e_id w) (e_id x)) eqn:E.
    + apply String.eqb_eq in E. exfalso. apply (Hbefore 0%nat w); [lia|reflexivity|exact E].
    + rewrite (IH i Hi Hid); [reflexivity|].
      intros j z Hj Hz. apply (Hbefore (S j) z); [lia|exact Hz].
Qed.

(** saveExpense: an expense with a new id is put in front of the list; one
    whose id is already stored replaces the first expense with that id, in
    place. Either way the saved expense is in the list afterwards. *)
Theorem saveExpense_upsert (e : env) (s : state) (x : expense) :
  local_write_fails e (getExpensesKey e) = false ->
  In x (getExpenses_pure e (saveExpense x e s).2) /\
  ((forall y, In y (getExpenses_pure e s) -> e_id y <> e_id x) ->
     getExpenses_pure e (saveExpense x e s).2 = x :: getExpenses_pure e s) /\
  (forall i y, getExpenses_pure e s !! i = Some y -> e_id y = e_id x ->
     (forall j z, (j < i)%nat -> getExpenses_pure e s !! j = Some z -> e_id z <> e_id x) ->
     getExpenses_pure e (saveExpense x e s).2 = <[i := x]> (getExpenses_pure e s)).
Proof.
  intros Hw. rewrite saveExpense_local, Hw. split; [|split].
  - unfold upsert_expense. destruct (replace_expense x _) as [l'|] eqn:E; [|by left].
    pose proof (replace_expense_fixed _ _ _ E) as E'.
    clear E. induction l' as [|w l' IH]; simpl in E'; [discriminate|].
    destruct (String.eqb (e_id w) (e_id x)) eqn:Ew.
    + injection E' as ->. by left.
    + right. apply IH. destruct (replace_expense x l'); [|discriminate].
      simpl in E'. injection E' as ->. reflexivity.
  - intros H. unfold upsert_expense. by rewrite replace_expense_none.
  - intros i y Hi Hid Hb. unfold upsert_expense. by rewrite (replace_expense_index x _ i y).
Qed.

Lemma saveExpense_upsert_witness :
  getExpenses_pure env_guest (saveExpense exp_bus env_guest st_expenses).2 = [exp_bus; exp_tea].
Proof.
  apply (proj1 (proj2 (saveExpense_upsert env_guest st_expenses exp_bus eq_refl))).
  intros y Hy. vm_compute in Hy. destruct Hy as [<-|[]]. vm_compute. discriminate.
Defined.

(** Saving the same expense twice leaves the same local list as saving it
    once. *)
Theorem saveExpense_idempotent (e : env) (s : state) (x : expense) :
  getExpenses_pure e (saveExpense x e (saveExpense x e s).2).2
  = getExpenses_pure e (saveExpense x e s).2.
Proof.
  rewrite !saveExpense_local. destruct (local_write_fails e (getExpensesKey e)); [reflexivity|].
  apply upsert_expense_idem.
Qed.

(** saveExpense of an expense with a fresh id followed by deleteExpense of
    that id gives back the original local list; both return true. *)
Theorem saveExpense_deleteExpense_roundtrip (e : env) (s : state) (x : expense) :
  local_write_fails e (getExpensesKey e) = false ->
  (forall y, In y (getExpenses_pure e s) -> e_id y <> e_id x) ->
  getExpenses_pure e (deleteExpense (e_id x) e (saveExpense x e s).2).2 = getExpenses_pure e s.
Proof.
  intros Hw Hfresh. rewrite deleteExpense_local, Hw, saveExpense_local, Hw.
  unfold upsert_expense. rewrite replace_expense_none by exact Hfresh. simpl.
  rewrite String.eqb_refl. simpl.
  induction (getExpenses_pure e s) as [|y l IH]; simpl; [reflexivity|].
  destruct (String.eqb (e_id y) (e_id x)) eqn:E.
  - apply String.eqb_eq in E. exfalso. apply (Hfresh y); [left|]; done.
  - simpl. f_equal. apply IH. intros z Hz. apply Hfresh. by right.
Qed.

Lemma saveExpense_deleteExpense_roundtrip_witness :
  getExpenses_pure env_guest (deleteExpense "e2" env_guest (saveExpense exp_bus env_guest st_expenses).2).2
  = [exp_tea].
Proof.
  apply (saveExpense_deleteExpense_roundtrip env_guest st_expenses exp_bus eq_refl).
  intros y Hy. vm_compute in Hy. destruct Hy as [<-|[]]. vm_compute. discriminate.
Defined.

(** ** Categories *)

(** saveCategories then getCategories returns the saved list; with a
    signed-in user, auto-backup on and no failing write or read, a later
    fetchCategoriesFromFirebase returns it too (cloud round trip). *)
Theorem saveCategories_roundtrip (e : env) (s : state) (cats : list string) :
  local_write_fails e (getCategoriesKey e) = false ->
  (getCategories e (saveCategories cats e s).2).1 = Some cats /\
  (forall uid, currentUser e = Some uid -> autoBackup (getBackupSettings_pure e s) = true ->
     remote_write_fails e (categoriesPath uid) = false ->
     remote_read_fails e (categoriesPath uid) = false ->
     (fetchCategoriesFromFirebase e (saveCategories cats e s).2).1 = Some cats).
Proof.
  intros Hw.
  assert (Hloc : categories_kv (saveCategories cats e s).2 !! getCategoriesKey e = Some cats).
  { unfold saveCategories, catch_, bind, ask, setCategoriesItem. rewrite Hw.
    unfold getBackupSettings. simpl. destruct (currentUser e) as [uid|].
    - destruct (autoBackup _).
      + unfold setDoc. destruct (remote_write_fails e _); simpl; by rewrite lookup_insert_eq.
      + simpl. by rewrite lookup_insert_eq.
    - simpl. by rewrite lookup_insert_eq. }
  split.
  - unfold getCategories. simpl. by rewrite Hloc.
  - intros uid Hu Ha Hrw Hrr.
    assert (Hrem : remote (saveCategories cats e s).2 !! categoriesPath uid
                   = Some (DCategories cats (now e))).
    { unfold saveCategories, catch_, bind, ask, setCategoriesItem. rewrite Hw.
      unfold getBackupSettings, getBackupSettings_pure in *. simpl. rewrite Hu, Ha.
      unfold setDoc. rewrite Hrw. simpl. by rewrite lookup_insert_eq. }
    unfold fetchCategoriesFromFirebase, catch_, bind, ask. rewrite Hu.
    unfold getDoc. rewrite Hrr, Hrem. unfold setCategoriesItem. rewrite Hw. reflexivity.
Qed.

Lemma saveCategories_roundtrip_witness :
  (fetchCategoriesFromFirebase env_user (saveCategories ["Food"; "Tea"]%string env_user (st_synced true)).2).1
  = Some ["Food"; "Tea"]%string.
Proof.
  exact (proj2 (saveCategories_roundtrip env_user (st_synced true) ["Food"; "Tea"]%string eq_refl)
           "u" eq_refl eq_refl eq_refl eq_refl).
Defined.

(** fetchCategoriesFromFirebase for a signed-in user: a failing read gives
    [] (not the local categories); a missing document gives whatever
    getCategories gives locally (the defaults when nothing is stored),
    writing nothing. *)
Theorem fetchCategoriesFromFirebase_fallback (e : env) (s : state) (uid : string) :
  currentUser e = Some uid ->
  (remote_read_fails e (categoriesPath uid) = true -> fetchCategoriesFromFirebase e s = (Some [], s)) /\
  (remote_read_fails e (categoriesPath uid) = false -> remote s !! categoriesPath uid = None ->
     fetchCategoriesFromFirebase e s = getCategories e s).
Proof.
  intros Hu. unfold fetchCategoriesFromFirebase, catch_, bind, ask. rewrite Hu. unfold getDoc.
  split.
  - intros Hr. by rewrite Hr.
  - intros Hr Hn. rewrite Hr, Hn. reflexivity.
Qed.

Lemma fetchCategoriesFromFirebase_fallback_witness :
  fetchCategoriesFromFirebase env_user (st_synced true) = (Some default_categories, st_synced true).
Proof.
  exact (proj2 (fetchCategoriesFromFirebase_fallback env_user (st_synced true) "u" eq_refl)
           eq_refl eq_refl).
Defined.

(** ** Backup settings *)

(** updateBackupSettings merges: [{autoBackup}] keeps [lastSync] and
    [syncStatus], [{lastSync}] keeps [autoBackup] and [syncStatus]; when the
    settings write fails both return false and change nothing. *)
Theorem updateBackupSettings_merge (e : env) (s : state) (v : bool) (ts : string) :
  (local_write_fails e (getSettingsKey e) = false ->
     updateAutoBackup v e s
       = (Some true, set_settings_kv s (<[getSettingsKey e := SStored
            (mkSettings v (lastSync (getBackupSettings_pure e s))
                          (syncStatus (getBackupSettings_pure e s)))]> (settings_kv s))) /\
     getBackupSettings_pure e (updateLastSync ts e s).2
       = mkSettings (autoBackup (getBackupSettings_pure e s)) (Some ts)
                    (syncStatus (getBackupSettings_pure e s))) /\
  (local_write_fails e (getSettingsKey e) = true ->
     updateAutoBackup v e s = (Some false, s) /\ updateLastSync ts e s = (Some false, s)).
Proof.
  split.
  - intros Hw. split.
    + unfold updateAutoBackup, catch_, bind, ask, getBackupSettings, setSettingsItem.
      rewrite Hw. reflexivity.
    + unfold updateLastSync, catch_, bind, ask, getBackupSettings, setSettingsItem.
      rewrite Hw. simpl. unfold getBackupSettings_pure at 1. simpl.
      by rewrite lookup_insert_eq.
  - intros Hw. unfold updateAutoBackup, updateLastSync, catch_, bind, ask, getBackupSettings,
      setSettingsItem. by rewrite Hw.
Qed.

Lemma updateBackupSettings_merge_witness :
  lastSync (getBackupSettings_pure env_user (updateLastSync "T" env_user (st_synced true)).2)
  = Some "T"%string /\
  updateAutoBackup false
    (mkEnv (Some "u") "T" (fun _ => true) (fun _ => false) (fun _ => false)) (st_synced true)
  = (Some false, st_synced true).
Proof.
  split.
  - rewrite (proj2 (proj1 (updateBackupSettings_merge env_user (st_synced true) false "T") eq_refl)).
    reflexivity.
  - exact (proj1 (proj2 (updateBackupSettings_merge
                           (mkEnv (Some "u") "T" (fun _ => true) (fun _ => false) (fun _ => false))
                           (st_synced true) false "T") eq_refl)).
Defined.

(** handleToggleBackup(true) then saveLedger: the toggle queues a full
    sync unless one is already running on the screen, and the next
    saveLedger queues a sync of the saved ledger; after
    handleToggleBackup(false) neither queues anything. *)
Theorem toggle_then_saveLedger (e : env) (s : state) (syncing v : bool) (L : ledger) :
  local_write_fails e (getSettingsKey e) = false ->
  local_write_fails e (getLedgersKey e) = false ->
  background (saveLedger L e (handleToggleBackup syncing v e s).2).2
  = background s ++ (if v && negb syncing then [TSyncAll] else [])
                 ++ (if v then [TSyncLedger L] else []).
Proof.
  intros Hs Hl.
  assert (Ht : handleToggleBackup syncing v e s
               = (Some tt, set_background
                    (set_settings_kv s (<[getSettingsKey e := SStored
                       (mkSettings v (lastSync (getBackupSettings_pure e s))
                                     (syncStatus (getBackupSettings_pure e s)))]> (settings_kv s)))
                    (background s ++ if v && negb syncing then [TSyncAll] else []))).
  { unfold handleToggleBackup, handleSyncNow, bind.
    rewrite (proj1 (proj1 (updateBackupSettings_merge e s v "") Hs)).
    destruct v, syncing; simpl; try reflexivity; rewrite app_nil_r; by destruct s. }
  rewrite Ht, saveLedger_spec by exact Hl. simpl.
  unfold getBackupSettings_pure at 1. simpl. rewrite lookup_insert_eq. simpl.
  rewrite <- app_assoc. reflexivity.
Qed.

Lemma toggle_then_saveLedger_witness :
  background (saveLedger ledger_new env_user (handleToggleBackup false true env_user (st_synced false)).2).2
  = [TSyncAll; TSyncLedger ledger_new] /\
  background (saveLedger ledger_new env_user (handleToggleBackup true true env_user (st_synced false)).2).2
  = [TSyncLedger ledger_new].
Proof.
  split.
  - rewrite (toggle_then_saveLedger env_user (st_synced false) false true ledger_new eq_refl eq_refl).
    reflexivity.
  - rewrite (toggle_then_saveLedger env_user (st_synced false) true true ledger_new eq_refl eq_refl).
    reflexivity.
Defined.

End StoreExtraProofs.

(* ------------------------------------------------------------------ *)
(** * Balance utilities and the amount guard of handleConfirm *)

Module CalcProofs.
Import Store StoreMore Calc Samples StoreProofs.

Lemma calculateBalance_fold_acc (ts : list txn) (acc : Z) :
  fold_left (fun b t => calculateBalance b (t_type t) (t_amount t)) ts acc = acc + signed_sum ts.
Proof.
  revert acc; induction ts as [|t ts IH]; intros acc; simpl; [lia|].
  rewrite IH. unfold calculateBalance, signed, is_credit. destruct (String.eqb _ _); lia.
Qed.

(** Folding calculateBalance over a transaction list from 0 gives the
    credit-positive sum; it is the final running balance of the add / edit
    path, and the negation of what deleteTransaction recomputes. *)
Theorem calculateBalance_fold (ts : list txn) :
  fold_left (fun b t => calculateBalance b (t_type t) (t_amount t)) ts 0 = signed_sum ts /\
  (assign_running 0 ts).2 = fold_left (fun b t => calculateBalance b (t_type t) (t_amount t)) ts 0 /\
  delete_recompute ts = - fold_left (fun b t => calculateBalance b (t_type t) (t_amount t)) ts 0.
Proof.
  rewrite calculateBalance_fold_acc, assign_running_final, delete_recompute_neg.
  split; [|split]; lia.
Qed.

(** formatBalance: the amount shown is the absolute balance; [isPositive]
    is true for a positive balance (GET), false for a negative one (GIVE)
    and null exactly when the balance is 0 (Settled). *)
Theorem formatBalance_classifies (b : Z) :
  f_amount (formatBalance b) = Z.abs b /\
  (isPositive (formatBalance b) = Some true <-> 0 < b) /\
  (isPositive (formatBalance b) = Some false <-> b < 0) /\
  (isPositive (formatBalance b) = None <-> b = 0) /\
  (f_text (formatBalance b) = SettledText \/ f_text (formatBalance b) = GetText (Z.abs b)
   \/ f_text (formatBalance b) = GiveText (Z.abs b)).
Proof.
  unfold formatBalance.
  destruct (0 <? b) eqn:H1; [apply Z.ltb_lt in H1|apply Z.ltb_ge in H1].
  - simpl. rewrite Z.abs_eq by lia. repeat split; try lia; try discriminate. right; left; reflexivity.
  - destruct (b <? 0) eqn:H2; [apply Z.ltb_lt in H2|apply Z.ltb_ge in H2]; simpl.
    + repeat split; try lia; try discriminate. right; right; reflexivity.
    + assert (b = 0) by lia. subst b. repeat split; try lia; try discriminate. left; reflexivity.
Qed.

Lemma kept_char_table (c : Ascii.ascii) :
  kept_char c = existsb (fun a => Ascii.eqb a c) (list_ascii_of_string "0123456789.+,-/*").
Proof. destruct c as [[] [] [] [] [] [] [] []]; vm_compute; reflexivity. Qed.

(** The cleaning step of evaluateMathExpression keeps, in order, exactly
    the characters [0-9 . + , - / *] (the class [+-/] is a range that also
    admits the comma), and cleaning twice is cleaning once. *)
Theorem cleanExpr_chars (expr : string) :
  list_ascii_of_string (cleanExpr expr)
    = List.filter (fun c => existsb (fun a => Ascii.eqb a c) (list_ascii_of_string "0123456789.+,-/*"))
                  (list_ascii_of_string expr) /\
  cleanExpr (cleanExpr expr) = cleanExpr expr.
Proof.
  unfold cleanExpr. rewrite !list_ascii_of_string_of_list_ascii. split.
  - apply filter_ext. intros c. apply kept_char_table.
  - f_equal. induction (list_ascii_of_string expr) as [|c l IH]; simpl; [reflexivity|].
    destruct (kept_char c) eqn:E; simpl; [rewrite E|]; congruence.
Qed.

Lemma string_of_list_ascii_empty (l : list Ascii.ascii) :
  String.eqb (string_of_list_ascii l) "" = true <-> l = [].
Proof. destruct l; simpl; split; try reflexivity; discriminate. Qed.

(** evaluateMathExpression returns 0 before evaluating exactly when the
    text is blank after trimming or has no digit or operator character;
    otherwise it evaluates the cleaned, nonempty text. With 0, handleConfirm
    saves nothing. *)
Theorem evaluate_prefix_spec (expr : string) :
  (evaluate_prefix expr = inl 0 <->
     String.eqb (trim expr) "" = true \/
     forallb (fun c => negb (kept_char c)) (list_ascii_of_string expr) = true) /\
  (forall c, evaluate_prefix expr = inr c -> c = cleanExpr expr /\ String.eqb c "" = false) /\
  (evaluate_prefix expr = inl 0 ->
     forall L editId genId type date, handleConfirm L editId genId type 0 date = None).
Proof.
  assert (Hc : String.eqb (cleanExpr expr) "" = true <->
               forallb (fun c => negb (kept_char c)) (list_ascii_of_string expr) = true).
  { unfold cleanExpr. rewrite string_of_list_ascii_empty.
    induction (list_ascii_of_string expr) as [|c l IH]; simpl; [tauto|].
    destruct (kept_char c); simpl; [split; discriminate|exact IH]. }
  unfold evaluate_prefix. split; [|split].
  - destruct (String.eqb (trim expr) "") eqn:Ht; [tauto|].
    destruct (String.eqb (cleanExpr expr) "") eqn:Ec.
    + split; [intros _; right; by apply Hc|reflexivity].
    + split; [discriminate|]. intros [H|H]; [discriminate|]. apply Hc in H. congruence.
  - intros c. destruct (String.eqb (trim expr) ""); [discriminate|].
    destruct (String.eqb (cleanExpr expr) "") eqn:Ec; [discriminate|].
    intros [= <-]. split; [reflexivity|exact Ec].
  - intros _ L editId genId type date. reflexivity.
Qed.

Lemma evaluate_prefix_spec_witness :
  evaluate_prefix "abc" = inl 0 /\ evaluate_prefix "1,5" = inr "1,5"%string.
Proof.
  split.
  - apply (proj2 (proj1 (evaluate_prefix_spec "abc"))). right. reflexivity.
  - destruct (evaluate_prefix "1,5") as [z|c] eqn:E.
    + vm_compute in E. discriminate.
    + destruct (proj1 (proj2 (evaluate_prefix_spec "1,5")) c E) as [-> _]. reflexivity.
Defined.

Lemma assign_running_length (r : Z) (l : list txn) :
  length (assign_running r l).1 = length l.
Proof. rewrite <- (length_map strip), assign_running_strip. apply length_map. Qed.

(** handleConfirm saves nothing for an amount <= 0 or a ledger without a
    [transactions] array; otherwise it keeps the ledger's id, name, phone
    and address, and the saved list has one more transaction when adding
    and as many as before when editing (also when no transaction has the
    edited id). *)
Theorem handleConfirm_shape (L : ledger) (editId : option string) (genId type : string)
    (amt date : Z) :
  (amt <= 0 -> handleConfirm L editId genId type amt date = None) /\
  (l_transactions L = None -> handleConfirm L editId genId type amt date = None) /\
  (forall ts L', l_transactions L = Some ts -> handleConfirm L editId genId type amt date = Some L' ->
     exists ts', l_transactions L' = Some ts' /\
       length ts' = (length ts + match editId with Some _ => 0 | None => 1 end)%nat /\
       l_id L' = l_id L /\ l_name L' = l_name L /\ l_phone L' = l_phone L /\
       l_address L' = l_address L).
Proof.
  split; [|split].
  - intros H. unfold handleConfirm. destruct (Z.leb_spec amt 0); [reflexivity|lia].
  - intros H. unfold handleConfirm. rewrite H. by destruct (Z.leb amt 0).
  - intros ts L' Hts H. unfold handleConfirm in H. rewrite Hts in H.
    destruct (Z.leb amt 0); [discriminate|].
    pose proof (assign_running_length 0
      (sort_by_date (updatedTransactions editId
        (mkTxn (match editId with Some e => e | None => genId end) type amt date None) ts))) as Hl.
    pose proof (Permutation_length (sort_by_date_perm (updatedTransactions editId
        (mkTxn (match editId with Some e => e | None => genId end) type amt date None) ts))) as Hp.
    destruct (assign_running _ _) as [ts' fin]. injection H as <-. simpl in Hl.
    exists ts'. split; [reflexivity|]. split; [|repeat split].
    rewrite Hl, Hp. destruct editId; simpl.
    + rewrite length_map. lia.
    + rewrite length_app. simpl. lia.
Qed.

Lemma handleConfirm_shape_witness :
  handleConfirm ledger_two (Some "t9") "" "credit" 5 3 <> None /\
  handleConfirm ledger_two None "t3" "credit" 0 3 = None.
Proof.
  split.
  - vm_compute. discriminate.
  - apply (proj1 (handleConfirm_shape ledger_two None "t3" "credit" 0 3)). lia.
Defined.

End CalcProofs.

(* ------------------------------------------------------------------ *)
(** * More properties of backup import, export and clearing *)

Module BackupExtraProofs.
Import Backup BackupMore BackupProofs.

(** Every failing importDataFromBackup leaves the storage as it was. *)
Theorem import_failure_keeps_store (ie : import_env) (fails : bool) (uri : option string)
    (kv : kvstore) (err : string) :
  (importDataFromBackup ie fails uri kv).1 = ImportFail err ->
  (importDataFromBackup ie fails uri kv).2 = kv.
Proof.
  unfold importDataFromBackup. destruct (selected_content ie uri) as [e|c]; [reflexivity|].
  unfold import_content. destruct c as [|[data|]]; try reflexivity.
  destruct (validateBackupFile data); simpl; [|reflexivity].
  destruct (get data "ledgers"); [|reflexivity]. by destruct fails.
Qed.

Lemma import_failure_keeps_store_witness :
  (importDataFromBackup (import_web backup_no_ledgers) false None kv_one).2 = kv_one.
Proof. apply (import_failure_keeps_store _ _ _ _ "Invalid backup file format"). reflexivity. Defined.

(** An import succeeds only from a read and parsed file that passes
    validateBackupFile and whose write succeeds; it then stores
    [data.ledgers] under ["ledgers"] and reports its number of keys. *)
Theorem import_ok_writes (ie : import_env) (fails : bool) (uri : option string)
    (kv : kvstore) (n : nat) :
  (importDataFromBackup ie fails uri kv).1 = ImportOk n ->
  exists data ledgers,
    selected_content ie uri = inr (ReadText (Some data)) /\
    validateBackupFile data = true /\ get data "ledgers" = Some ledgers /\ fails = false /\
    n = keys_count ledgers /\
    (importDataFromBackup ie fails uri kv).2 = <[LEDGERS_KEY := BJson ledgers]> kv.
Proof.
  unfold importDataFromBackup. destruct (selected_content ie uri) as [e|c]; [discriminate|].
  unfold import_content. destruct c as [|[data|]]; try discriminate.
  destruct (validateBackupFile data) eqn:Hv; simpl; [|discriminate].
  destruct (get data "ledgers") as [ledgers|] eqn:Hl; [|discriminate].
  destruct fails; [discriminate|]. intros [= <-].
  exists data, ledgers. by repeat split.
Qed.

Lemma import_ok_writes_witness :
  (importDataFromBackup (import_web backup_one) false None ∅).2
  = <[LEDGERS_KEY := BJson (JObj [("L", ledger_asha)])]> ∅.
Proof.
  destruct (import_ok_writes (import_web backup_one) false None ∅ 1 eq_refl)
    as [data [ledgers [Hs [_ [Hl [_ [_ E]]]]]]].
  rewrite E. injection Hs as <-. injection Hl as <-. reflexivity.
Defined.

(** Export then import: when the stored collection is an object whose
    ledgers pass the validation, importing the exported file succeeds,
    reports the number of ledgers and stores the exported collection under
    ["ledgers"]. *)
Theorem export_import_restores (ee : export_env) (kv : kvstore) (path : string) (file : jsval)
    (fs : list (string * jsval)) (ie : import_env) (uri : option string) :
  getAllLedgers (ex_user ee) kv = JObj fs ->
  check_ledgers (map snd fs) = true ->
  exportDataToBackup ee kv = (ExportOk path, Some file) ->
  selected_content ie uri = inr (ReadText (Some file)) ->
  importDataFromBackup ie false uri kv = (ImportOk (length fs), <[LEDGERS_KEY := BJson (JObj fs)]> kv).
Proof.
  intros Hg Hc Hx Hs.
  assert (Hf : exists expenses categories, file =
            JObj [("version", JStr "1.0"); ("exportDate", JStr (ex_now ee));
                  ("ledgers", JObj fs); ("expenses", expenses); ("categories", categories)]%string).
  { revert Hx. unfold exportDataToBackup. rewrite Hg. simpl.
    destruct (read_list_or_empty _) as [ex|]; [|discriminate].
    destruct (read_list_or_empty _) as [ca|]; [|discriminate].
    destruct (ex_web ee); [intros [= _ <-]; eauto|].
    destruct (ex_write_fails ee); [discriminate|].
    destruct (ex_share_fails ee); [discriminate|]. intros [= _ <-]; eauto. }
  destruct Hf as [ex [ca ->]].
  unfold importDataFromBackup. rewrite Hs. unfold import_content.
  unfold validateBackupFile. simpl. rewrite Hc. reflexivity.
Qed.

Lemma export_import_restores_witness :
  importDataFromBackup (import_web backup_one) false None kv_one
  = (ImportOk 1, <[LEDGERS_KEY := BJson (JObj [("L", ledger_asha)])]> kv_one).
Proof.
  apply (export_import_restores export_web kv_one "web_download" backup_one
           [("L", ledger_asha)]%string (import_web backup_one) None); vm_compute; reflexivity.
Defined.

(** part_001 clearAllData removes only the key ["ledgers"]: the collection
    read by getAllLedgers is untouched, and clearing right after an import
    gives the store as it was with ["ledgers"] removed. A failing removal
    returns false and changes nothing. *)
Theorem clearAllData_ledgers_key (ie : import_env) (uri : option string) (kv : kvstore)
    (user : option string) :
  (BackupMore.clearAllData false (importDataFromBackup ie false uri kv).2).2 = delete LEDGERS_KEY kv /\
  getAllLedgers user (BackupMore.clearAllData false kv).2 = getAllLedgers user kv /\
  BackupMore.clearAllData true kv = (false, kv).
Proof.
  split; [|split; [|reflexivity]].
  - unfold BackupMore.clearAllData. simpl.
    unfold importDataFromBackup. destruct (selected_content ie uri) as [e|c]; [reflexivity|].
    unfold import_content. destruct c as [|[data|]]; try reflexivity.
    destruct (validateBackupFile data); simpl; [|reflexivity].
    destruct (get data "ledgers"); [|reflexivity]. simpl. apply delete_insert_eq.
  - unfold BackupMore.clearAllData, getAllLedgers. simpl.
    rewrite lookup_delete_ne; [reflexivity|]. intros H. symmetry in H. by apply (ledgers_key_ne user).
Qed.

End BackupExtraProofs.

(* ------------------------------------------------------------------ *)
(** * Cloud round trip: syncLedgerToFirebase then fetchFromFirebase *)

Module SyncProofs.
Import Store Samples StoreProofs StoreExtraProofs.

Section FoldInsert.
Context {K V A : Type} `{Countable K}.
Variables (path : A -> K) (val : A -> V).

Lemma fold_insert_notin (l : list A) (m : gmap K V) (k : K) :
  (forall x, In x l -> path x <> k) ->
  fold_left (fun r x => <[path x := val x]> r) l m !! k = m !! k.
Proof.
  revert m; induction l as [|x l IH]; intros m Hn; simpl; [reflexivity|].
  rewrite IH by (intros y Hy; apply Hn; by right).
  apply lookup_insert_ne. apply Hn. by left.
Qed.

Lemma fold_insert_inv (l : list A) (m : gmap K V) (k : K) (v : V) :
  fold_left (fun r x => <[path x := val x]> r) l m !! k = Some v ->
  m !! k = Some v \/ exists x, In x l /\ path x = k /\ val x = v.
Proof.
  revert m; induction l as [|x l IH]; intros m Hk; simpl in Hk; [by left|].
  destruct (IH _ Hk) as [Hm|[y [Hy [Hp Hv]]]].
  - destruct (decide (path x = k)) as [<-|Hne].
    + rewrite lookup_insert_eq in Hm. injection Hm as <-. right. exists x. split; [by left|done].
    + rewrite lookup_insert_ne in Hm by exact Hne. by left.
  - right. exists y. split; [by right|done].
Qed.

Lemma fold_insert_in (l : list A) (m : gmap K V) (x : A) :
  NoDup (map path l) -> In x l ->
  fold_left (fun r x => <[path x := val x]> r) l m !! path x = Some (val x).
Proof.
  revert m; induction l as [|y l IH]; intros m Hnd Hin; [done|]. simpl.
  inversion Hnd as [|? ? Hy Hnd']; subst.
  destruct Hin as [<-|Hin].
  - rewrite fold_insert_notin; [apply lookup_insert_eq|].
    intros z Hz Heq. apply Hy. rewrite <- Heq. apply list_elem_of_In. by apply in_map.
  - by apply IH.
Qed.

End FoldInsert.

Lemma set_remote_twice (s : state) (r1 r2 : gmap (list string) doc) :
  set_remote (set_remote s r1) r2 = set_remote s r2.
Proof. by destruct s. Qed.

Lemma setDoc_eq (p : list string) (d : doc) (e : env) (s : state) :
  setDoc p d e s = if remote_write_fails e p then (None, s)
                   else (Some tt, set_remote s (<[p := d]> (remote s))).
Proof. reflexivity. Qed.

Lemma forM_setDoc_ok {A} (l : list A) (path : A -> list string) (d : A -> doc) (e : env) (s : state) :
  (forall p, remote_write_fails e p = false) ->
  forM_ l (fun x => setDoc (path x) (d x)) e s
  = (Some tt, set_remote s (fold_left (fun r x => <[path x := d x]> r) l (remote s))).
Proof.
  intros Hw. revert s; induction l as [|x l IH]; intros s; simpl.
  - unfold ret. by destruct s.
  - unfold bind. rewrite setDoc_eq, Hw, IH. simpl. by rewrite set_remote_twice.
Qed.

Lemma forM_ext_in {A} (l : list A) (f g : A -> M unit) (e : env) (s : state) :
  (forall x, In x l -> forall s', f x e s' = g x e s') -> forM_ l f e s = forM_ l g e s.
Proof.
  revert s; induction l as [|x l IH]; intros s H; simpl; [reflexivity|].
  unfold bind. rewrite (H x (or_introl eq_refl)).
  destruct (g x e s) as [[[]|] s']; [|reflexivity].
  apply IH. intros y Hy. apply H. by right.
Qed.

(** With a signed-in user, no failing write and a [balanceAfter] on every
    transaction, syncLedgerToFirebase writes the ledger document, then one
    document per transaction. *)
Lemma syncLedgerToFirebase_ok (L : ledger) (e : env) (s : state) (uid : string) (ts : list txn) :
  currentUser e = Some uid -> (forall p, remote_write_fails e p = false) ->
  l_transactions L = Some ts -> Forall (fun t => t_balanceAfter t <> None) ts ->
  syncLedgerToFirebase L e s
  = (Some tt, set_remote s
       (fold_left (fun r t => <[txnPath uid (l_id L) (t_id t) :=
                                  DTxn (t_type t) (t_amount t) (t_date t) (t_balanceAfter t)]> r) ts
          (<[ledgerPath uid (l_id L) := DLedger (l_name L) (l_balance L) (l_phone L) (l_address L) (now e)]>
             (remote s)))).
Proof.
  intros Hu Hw Ht Hb. unfold syncLedgerToFirebase, catch_, bind, ask. rewrite Hu.
  rewrite setDoc_eq, Hw, Ht.
  rewrite (forM_ext_in ts (setTxnDoc uid (l_id L))
             (fun t => setDoc (txnPath uid (l_id L) (t_id t))
                         (DTxn (t_type t) (t_amount t) (t_date t) (t_balanceAfter t)))).
  2:{ intros t Hin s'. rewrite Forall_forall in Hb. specialize (Hb t (proj2 (list_elem_of_In _ _) Hin)).
      unfold setTxnDoc. by destruct (t_balanceAfter t). }
  rewrite (forM_setDoc_ok ts (fun t => txnPath uid (l_id L) (t_id t))
             (fun t => DTxn (t_type t) (t_amount t) (t_date t) (t_balanceAfter t)) e _ Hw).
  simpl. by rewrite set_remote_twice.
Qed.

Lemma fmap_map_list {A B} (f : A -> B) (l : list A) : f <$> l = map f l.
Proof. induction l as [|x l IH]; simpl; [reflexivity|]. by rewrite <- IH. Qed.

Lemma children_NoDup (coll : list string) (r : gmap (list string) doc) :
  NoDup (map fst (children coll r)).
Proof.
  unfold children. pose proof (NoDup_fst_map_to_list r) as Hnd.
  rewrite fmap_map_list in Hnd. revert Hnd. generalize (map_to_list r) as l.
  induction l as [|[k d] l IH]; intros Hnd; simpl; [constructor|].
  inversion Hnd as [|? ? Hk Hnd']; subst.
  destruct (strip_prefix coll k) as [[|id [|]]|] eqn:Hs; try (apply IH; exact Hnd').
  simpl. constructor; [|apply IH; exact Hnd'].
  intros Hin. apply Hk. apply list_elem_of_In, in_map_iff in Hin as [[id' d'] [Hid Hin]]. simpl in Hid. subst id'.
  apply list_elem_of_In, list_elem_of_omap in Hin as [[k' d''] [Hin Hf]]. simpl in Hf.
  destruct (strip_prefix coll k') as [[|id'' [|]]|] eqn:Hs'; try discriminate.
  injection Hf as -> _.
  apply strip_prefix_app in Hs, Hs'. subst k k'.
  apply list_elem_of_In. apply list_elem_of_In, (in_map fst) in Hin. exact Hin.
Qed.

Lemma txnPath_inj (uid lid a b : string) : txnPath uid lid a = txnPath uid lid b -> a = b.
Proof. unfold txnPath. by intros [=]. Qed.

Lemma txn_of_doc_txn (t : txn) :
  txn_of_doc (t_id t, DTxn (t_type t) (t_amount t) (t_date t) (t_balanceAfter t)) = t.
Proof. by destruct t. Qed.

(** syncLedgerToFirebase then fetchFromFirebase: for a signed-in user with
    no ledger documents in Firestore yet, when nothing fails, the
    transaction ids are distinct and every transaction has a balanceAfter,
    the fetch returns one ledger, under the synced id, with the synced
    name, phone, address and balance; its transactions are those written
    by the sync (id, type, amount, date, balanceAfter, each as synced),
    sorted ascending by date. *)
Theorem sync_then_fetch_roundtrip (e : env) (s : state) (uid : string) (L : ledger) (ts : list txn) :
  currentUser e = Some uid ->
  (forall p, remote_write_fails e p = false) ->
  (forall p, remote_read_fails e p = false) ->
  local_write_fails e (getLedgersKey e) = false ->
  l_transactions L = Some ts -> NoDup (map t_id ts) ->
  Forall (fun t => t_balanceAfter t <> None) ts ->
  (forall p d, remote s !! p = Some d -> take 3 p <> ["users"; uid; "ledgers"]%string) ->
  exists ts',
    (fetchFromFirebase e (syncLedgerToFirebase L e s).2).1
      = Some {[l_id L := mkLedger (l_id L) (l_name L) (l_phone L) (l_address L) (l_balance L) (Some ts')]} /\
    Permutation ts' ts /\ Sorted date_le ts'.
Proof.
  intros Hu Hw Hr Hl Ht Hnd Hb Hfree.
  rewrite (syncLedgerToFirebase_ok L e s uid ts Hu Hw Ht Hb).
  set (P := fun t => txnPath uid (l_id L) (t_id t)).
  set (D := fun t => DTxn (t_type t) (t_amount t) (t_date t) (t_balanceAfter t)).
  set (DL := DLedger (l_name L) (l_balance L) (l_phone L) (l_address L) (now e)).
  set (R1 := <[ledgerPath uid (l_id L) := DL]> (remote s)).
  set (R' := fold_left (fun r t => <[P t := D t]> r) ts R1).
  change (fold_left _ ts _) with R'.
  set (C := ["users"; uid; "ledgers"]%string).
  set (T := ["users"; uid; "ledgers"; l_id L; "transactions"]%string).
  assert (HndP : NoDup (map P ts)).
  { clear -Hnd. induction ts as [|t ts IH]; simpl; [constructor|].
    inversion Hnd as [|? ? Hn Hnd']; subst. constructor; [|by apply IH].
    intros Hin. apply list_elem_of_In, in_map_iff in Hin as [t' [Heq Hin]]. apply Hn.
    apply txnPath_inj in Heq. rewrite <- Heq. apply list_elem_of_In. by apply in_map. }
  (* the ledgers collection holds only the synced ledger *)
  assert (HC : children C R' = [(l_id L, DL)]).
  { assert (Hall : forall y, In y (children C R') -> y = (l_id L, DL)).
    { intros [id d] Hy. apply list_elem_of_In, children_lookup in Hy.
      apply fold_insert_inv in Hy as [Hy|[t [_ [Hp _]]]].
      - unfold R1 in Hy. destruct (decide (id = l_id L)) as [->|Hne].
        + rewrite lookup_insert_eq in Hy. by injection Hy as <-.
        + rewrite lookup_insert_ne in Hy by (unfold ledgerPath, C; simpl; intros [= ?]; congruence).
          exfalso. apply (Hfree _ _ Hy). reflexivity.
      - unfold P, txnPath in Hp. simpl in Hp. discriminate. }
    assert (Hin : In (l_id L, DL) (children C R')).
    { apply list_elem_of_In, children_complete. unfold R'.
      change (C ++ [l_id L]) with (ledgerPath uid (l_id L)).
      rewrite fold_insert_notin; [apply lookup_insert_eq|].
      intros t _. unfold P, txnPath, ledgerPath. discriminate. }
    pose proof (children_NoDup C R') as HndC.
    destruct (children C R') as [|y [|z l]]; [done| |].
    - f_equal. apply Hall. by left.
    - exfalso. rewrite (Hall y (or_introl eq_refl)), (Hall z (or_intror (or_introl eq_refl))) in HndC.
      inversion HndC as [|? ? Hn _]. apply Hn. by left. }
  (* the transactions subcollection holds exactly the synced transactions *)
  assert (HT : Permutation (map txn_of_doc (children T R')) ts).
  { apply NoDup_Permutation.
    - apply (NoDup_fmap_1 t_id). rewrite fmap_map_list, map_map.
      replace (map (fun x => t_id (txn_of_doc x)) (children T R')) with (map fst (children T R')).
      + apply children_NoDup.
      + apply map_ext. intros [id d]. unfold txn_of_doc. simpl. by destruct d.
    - apply (NoDup_fmap_1 t_id). by rewrite fmap_map_list.
    - intros x. rewrite !list_elem_of_In. split.
      + intros Hx. apply in_map_iff in Hx as [[id d] [<- Hy]].
        apply list_elem_of_In, children_lookup in Hy.
        apply fold_insert_inv in Hy as [Hy|[t [Hint [Hp Hd]]]].
        * unfold R1 in Hy. rewrite lookup_insert_ne in Hy by (unfold ledgerPath, T; simpl; congruence).
          exfalso. apply (Hfree _ _ Hy). reflexivity.
        * unfold P in Hp. change (T ++ [id]) with (txnPath uid (l_id L) id) in Hp.
          apply txnPath_inj in Hp. subst id d. by rewrite txn_of_doc_txn.
      + intros Hx. rewrite <- (txn_of_doc_txn x). apply in_map.
        apply list_elem_of_In, children_complete.
        change (T ++ [t_id x]) with (P x).
        change (DTxn (t_type x) (t_amount x) (t_date x) (t_balanceAfter x)) with (D x).
        unfold R'. by apply fold_insert_in. }
  exists (sort_by_date (map txn_of_doc (children T R'))).
  split; [|split].
  - unfold fetchFromFirebase, bind, ask. rewrite Hu. unfold getDocs. rewrite Hr. simpl.
    fold C. rewrite HC. simpl. unfold fetch_ledger, bind, getDocs. rewrite Hr. simpl.
    fold T. unfold setLedgersItem. rewrite Hl. reflexivity.
  - rewrite sort_by_date_perm. exact HT.
  - apply sort_by_date_sorted.
Qed.

Lemma sync_then_fetch_roundtrip_witness :
  exists ts',
    (fetchFromFirebase env_user (syncLedgerToFirebase ledger_two env_user st_new).2).1
      = Some {["L" := mkLedger "L" "Asha" "" "" 70 (Some ts')]} /\
    Permutation ts' [mkTxn "t1" "credit" 100 1 (Some 100); mkTxn "t2" "debit" 30 2 (Some 70)] /\
    Sorted date_le ts'.
Proof.
  apply (sync_then_fetch_roundtrip env_user st_new "u" ledger_two
           [mkTxn "t1" "credit" 100 1 (Some 100); mkTxn "t2" "debit" 30 2 (Some 70)]);
    try reflexivity.
  - apply (bool_decide_unpack _). vm_compute. reflexivity.
  - repeat constructor; discriminate.
  - intros p d Hp. vm_compute in Hp. discriminate.
Defined.

End SyncProofs.

(* ------------------------------------------------------------------ *)
(** * deleteLedger then fetchFromFirebase *)

Module DeleteFetchProofs.
Import Store Samples StoreProofs StoreExtraProofs.

(** With auto-backup off, a successful deleteLedger leaves Firestore as it
    was. *)
Lemma deleteLedger_remote_off (e : env) (s s1 : state) (lid : string) :
  deleteLedger lid e s = (Some true, s1) -> autoBackup (getBackupSettings_pure e s) = false ->
  remote s1 = remote s.
Proof.
  unfold deleteLedger, catch_, bind, ask, getAllLedgers, setLedgersItem.
  destruct (local_write_fails e (getLedgersKey e)); [discriminate|].
  unfold getBackupSettings. simpl. intros H Ha.
  replace (autoBackup (getBackupSettings_pure e _)) with false in H by (symmetry; exact Ha).
  destruct (currentUser e); injection H as <-; reflexivity.
Qed.

(** Each step of fetchFromFirebase's loop only adds keys: every ledger
    document listed ends up in the result. *)
Lemma fetch_fold_complete (uid : string) (docs : list (string * doc)) (acc : gmap string ledger)
    (e : env) (s s' : state) (r : gmap string ledger) (k : string) :
  foldM (fetch_ledger uid) docs acc e s = (Some r, s') ->
  is_Some (acc !! k) \/ (exists d, (k, d) ∈ docs) -> is_Some (r !! k).
Proof.
  revert acc s; induction docs as [|[k0 d0] docs IH]; intros acc s H Hk; simpl in H.
  - injection H as <- _. destruct Hk as [Hk|[d Hd]]; [exact Hk|]. inversion Hd.
  - unfold bind at 1, fetch_ledger, bind, getDocs in H. simpl in H.
    destruct (remote_read_fails e _); [discriminate|].
    unfold ret in H. apply (IH _ _ H).
    destruct (decide (k = k0)) as [->|Hne].
    + left. rewrite lookup_insert_eq. by eexists.
    + destruct Hk as [Hk|[d Hd]].
      * left. by rewrite lookup_insert_ne by congruence.
      * right. exists d. apply elem_of_cons in Hd as [Hd|Hd]; [congruence|exact Hd].
Qed.

(** When no read fails, fetchFromFirebase's loop succeeds. *)
Lemma fetch_fold_total (uid : string) (docs : list (string * doc)) (acc : gmap string ledger)
    (e : env) (s : state) :
  (forall p, remote_read_fails e p = false) ->
  exists r, foldM (fetch_ledger uid) docs acc e s = (Some r, s).
Proof.
  intros Hr. revert acc; induction docs as [|[k0 d0] docs IH]; intros acc; simpl.
  - by exists acc.
  - unfold bind at 1, fetch_ledger, bind, getDocs. rewrite Hr. simpl. apply IH.
Qed.

(** C9 (as the code has it): after a successful deleteLedger(id),
    getAllLedgers has no ledger [id]. A following fetchFromFirebase does
    not bring it back when no user is signed in or when auto-backup was on
    at the deletion (the remote ledger document was then deleted). With a
    signed-in user and auto-backup off, the remote ledger document, if
    there is one, stays; the fetch then succeeds whenever no read and not
    the local write fails, and a successful fetch puts ledger [id] back
    into the local collection. *)
Theorem deleteLedger_fetch_outcome (e : env) (s s1 : state) (lid : string) :
  deleteLedger lid e s = (Some true, s1) ->
  getAllLedgers_pure e s1 !! lid = None /\
  ((currentUser e = None \/ autoBackup (getBackupSettings_pure e s) = true) ->
   forall res s2, fetchFromFirebase e s1 = (res, s2) ->
     getAllLedgers_pure e s2 !! lid = None /\ (forall r, res = Some r -> r !! lid = None)) /\
  (forall uid d, currentUser e = Some uid -> autoBackup (getBackupSettings_pure e s) = false ->
     remote s !! ledgerPath uid lid = Some d ->
     remote s1 !! ledgerPath uid lid = Some d /\
     ((forall p, remote_read_fails e p = false) -> local_write_fails e (getLedgersKey e) = false ->
        exists r s2, fetchFromFirebase e s1 = (Some r, s2)) /\
     (forall r s2, fetchFromFirebase e s1 = (Some r, s2) ->
        is_Some (r !! lid) /\ getAllLedgers_pure e s2 !! lid = r !! lid)).
Proof.
  intros Hd. destruct (deleteLedger_not_resurrected e s s1 lid Hd) as [H1 H2].
  split; [exact H1|]. split; [exact H2|].
  intros uid d Hu Ha Hrem.
  assert (Hrem1 : remote s1 !! ledgerPath uid lid = Some d)
    by (rewrite (deleteLedger_remote_off e s s1 lid Hd Ha); exact Hrem).
  split; [exact Hrem1|]. split.
  - intros Hr Hl. unfold fetchFromFirebase, bind, ask. rewrite Hu.
    unfold getDocs. rewrite Hr.
    destruct (fetch_fold_total uid (children ["users"; uid; "ledgers"]%string (remote s1)) ∅ e s1 Hr)
      as [r Hf].
    rewrite Hf. unfold setLedgersItem. rewrite Hl. by eexists _, _.
  - intros r s2 Hf. unfold fetchFromFirebase, bind, ask in Hf. rewrite Hu in Hf.
    unfold getDocs in Hf. destruct (remote_read_fails e _); [discriminate|].
    destruct (foldM (fetch_ledger uid) _ ∅ e s1) as [[r'|] s'] eqn:Ef; [|discriminate].
    unfold setLedgersItem in Hf. destruct (local_write_fails e (getLedgersKey e)); [discriminate|].
    unfold ret in Hf. injection Hf as <- <-. split.
    + apply (fetch_fold_complete _ _ _ _ _ _ _ lid Ef). right. exists d.
      apply children_complete. exact Hrem1.
    + unfold getAllLedgers_pure. simpl. by rewrite lookup_insert_eq.
Qed.

Lemma deleteLedger_fetch_outcome_witness :
  is_Some (getAllLedgers_pure env_user
             (fetchFromFirebase env_user (deleteLedger "L" env_user (st_synced false)).2).2
           !! "L"%string).
Proof.
  assert (Hd : deleteLedger "L" env_user (st_synced false)
               = (Some true, (deleteLedger "L" env_user (st_synced false)).2))
    by (vm_compute; reflexivity).
  destruct (deleteLedger_fetch_outcome _ _ _ _ Hd) as [_ [_ H3]].
  destruct (H3 "u" (DLedger "Asha" 0 "" "" "2025-12-31T00:00:00Z") eq_refl eq_refl eq_refl)
    as [_ [H4 H5]].
  destruct (H4 (fun _ => eq_refl) eq_refl) as [r [s2 Hf]].
  destruct (H5 r s2 Hf) as [Hs Heq]. rewrite Hf. simpl. rewrite Heq. exact Hs.
Defined.

End DeleteFetchProofs.
